(** * rustopos: trade positions and the trade repository

    A shallow embedding of [position_mgmt.py].  The three Python classes
    [Trade], [TradePosition] and [TradeRepository] become three modules.
    Methods mutate [self] in place and may raise, so every method is a
    computation in a small state-and-exception monad: it maps the object's
    state before the call to an outcome (a return value or the exception
    raised) together with the object's state after the call.  A raise keeps
    every mutation made before it, as in Python.

    Quantities are Python [int]s (unbounded, [Z]); prices are Python
    [float]s (IEEE binary64, the kernel's primitive [float]). *)

From Stdlib Require Import ZArith Floats.
From stdpp Require Import gmap strings fin_maps.

#[local] Open Scope Z_scope.

(** ** Python effects: in-place mutation and exceptions *)

Inductive exn : Set :=
| ZeroDivisionError
| OverflowError
| KeyError.

Inductive outcome (A : Type) : Type :=
| Returned (a : A)
| Raised (e : exn).

Arguments Returned {A} a.
Arguments Raised {A} e.

Definition M (S A : Type) : Type := S → outcome A * S.

Definition ret {S A : Type} (a : A) : M S A := λ s, (Returned a, s).

Definition raise {S A : Type} (e : exn) : M S A := λ s, (Raised e, s).

Definition bind {S A B : Type} (m : M S A) (k : A → M S B) : M S B :=
  λ s, match m s with
       | (Returned a, s') => k a s'
       | (Raised e, s') => (Raised e, s')
       end.

Definition get {S : Type} : M S S := λ s, (Returned s, s).

Definition modify {S : Type} (f : S → S) : M S unit := λ s, (Returned tt, f s).

Notation "x <- m ;; k" := (bind m (λ x, k))
  (at level 100, m at next level, right associativity).
Notation "m ;; k" := (bind m (λ _, k))
  (at level 100, right associativity).

(** ** Python numbers *)

(** [float(z)] for an [int] operand of a float operation, as CPython's
    [PyLong_AsDouble]: the nearest binary64 value, ties to even, and
    [OverflowError] ("int too large to convert to float") when that value
    is not finite.  [None] stands for the overflow. *)
Definition float_of_int (z : Z) : option float :=
  let f := SF2Prim (binary_normalize prec emax z 0 false) in
  if is_infinity f then None else Some f.

Definition as_float {S : Type} (z : Z) : M S float :=
  match float_of_int z with
  | Some d => ret d
  | None => raise OverflowError
  end.

(** Truth value of an [int]: only [0] is falsy. *)
Definition truthy_int (z : Z) : bool := negb (z =? 0).

(** Truth value of a [float]: [0.0] and [-0.0] are falsy; a NaN is truthy. *)
Definition truthy_float (f : float) : bool := negb (f =? 0)%float.

(** [datetime.date]; the repository never inspects it. *)
Record date : Set := Date { year : Z; month : Z; day : Z }.

(** ** class Trade *)

Module Trade.

Record t : Set := mk {
  trade_id : Z;
  trade_date : date;
  instrument : string;
  quantity : Z;
  price : float;
  side : string
}.

Definition set_quantity (q : Z) (trade : t) : t :=
  mk (trade_id trade) (trade_date trade) (instrument trade) q
     (price trade) (side trade).

Definition set_price (p : float) (trade : t) : t :=
  mk (trade_id trade) (trade_date trade) (instrument trade) (quantity trade)
     p (side trade).

End Trade.

(** ** class TradePosition *)

Module TradePosition.

Record t : Set := mk {
  instrument : string;
  quantity : Z;
  average_price : float
}.

(** [__init__(self, instrument)] *)
Definition init (instrument : string) : t := mk instrument 0 0%float.

Definition set_quantity (q : Z) (self : t) : t :=
  mk (instrument self) q (average_price self).

Definition set_average_price (p : float) (self : t) : t :=
  mk (instrument self) (quantity self) p.

(** [update_position(self, trade)].  In the buy branch the quantity is
    incremented first; the right-hand side of the assignment to
    [average_price] is then evaluated left to right, each [int] operand of
    a float operation being converted by [as_float]; the division by the
    [int] [self.quantity] converts it as well and raises
    [ZeroDivisionError] when it is [0].  (CPython compares the converted
    divisor with [0.0]; [0] converts to [0.0], and an [int] that is not [0]
    converts to a float of magnitude at least [1.0] or overflows, so the
    test is written on the [int].) *)
Definition update_position (trade : Trade.t) : M t unit :=
  if (Trade.side trade =? "buy")%string then
    modify (λ self, set_quantity (quantity self + Trade.quantity trade) self) ;;
    self <- get ;;
    old_qty <- as_float (quantity self - Trade.quantity trade) ;;
    trade_qty <- as_float (Trade.quantity trade) ;;
    let total := (average_price self * old_qty
                  + Trade.price trade * trade_qty)%float in
    new_qty <- as_float (quantity self) ;;
    if quantity self =? 0 then raise ZeroDivisionError
    else modify (set_average_price (total / new_qty)%float)
  else if (Trade.side trade =? "sell")%string then
    modify (λ self, set_quantity (quantity self - Trade.quantity trade) self) ;;
    self <- get ;;
    if quantity self =? 0 then modify (set_average_price 0%float)
    else ret tt
  else ret tt.

End TradePosition.

(** ** class TradeRepository *)

Module TradeRepository.

Record t : Type := mk {
  trades : gmap Z Trade.t;
  positions : gmap string TradePosition.t
}.

(** [__init__(self)] *)
Definition init : t := mk ∅ ∅.

Definition set_trades (f : gmap Z Trade.t → gmap Z Trade.t) (self : t) : t :=
  mk (f (trades self)) (positions self).

Definition set_positions
    (f : gmap string TradePosition.t → gmap string TradePosition.t)
    (self : t) : t :=
  mk (trades self) (f (positions self)).

(** [self.positions[instrument]] followed by a method or statement [m]
    that mutates the position object found: the subscript raises
    [KeyError] when the key is absent; otherwise the object stored under
    the key carries the mutations of [m], also when [m] raises. *)
Definition on_position {A : Type} (instrument : string)
    (m : M TradePosition.t A) : M t A :=
  λ self,
    match positions self !! instrument with
    | None => (Raised KeyError, self)
    | Some position =>
        let '(res, position') := m position in
        (res, set_positions <[instrument := position']> self)
    end.

(** [add_trade(self, trade)] *)
Definition add_trade (trade : Trade.t) : M t unit :=
  modify (set_trades <[Trade.trade_id trade := trade]>) ;;
  self <- get ;;
  (match positions self !! Trade.instrument trade with
   | None =>
       modify (set_positions
                 <[Trade.instrument trade :=
                     TradePosition.init (Trade.instrument trade)]>)
   | Some _ => ret tt
   end) ;;
  on_position (Trade.instrument trade) (TradePosition.update_position trade).

(** The two guarded assignments of [amend_trade] to the stored trade.
    An argument left at its default [None] is falsy. *)
Definition amend_fields (new_quantity : option Z) (new_price : option float)
    (trade : Trade.t) : Trade.t :=
  let trade :=
    match new_quantity with
    | Some q => if truthy_int q then Trade.set_quantity q trade else trade
    | None => trade
    end in
  match new_price with
  | Some p => if truthy_float p then Trade.set_price p trade else trade
  | None => trade
  end.

(** [amend_trade(self, trade_id, new_quantity=None, new_price=None)].  The
    trade object stored under [trade_id] is mutated in place, so the map
    holds the amended trade from then on. *)
Definition amend_trade (trade_id : Z) (new_quantity : option Z)
    (new_price : option float) : M t unit :=
  self <- get ;;
  match trades self !! trade_id with
  | None => ret tt
  | Some trade =>
      let trade := amend_fields new_quantity new_price trade in
      modify (set_trades <[trade_id := trade]>) ;;
      on_position (Trade.instrument trade)
        (TradePosition.update_position trade)
  end.

(** [cancel_trade(self, trade_id)] *)
Definition cancel_trade (trade_id : Z) : M t unit :=
  self <- get ;;
  match trades self !! trade_id with
  | None => ret tt
  | Some trade =>
      modify (set_trades (delete trade_id)) ;;
      on_position (Trade.instrument trade)
        (modify (λ position,
           TradePosition.set_quantity
             (TradePosition.quantity position
              - (if (Trade.side trade =? "buy")%string
                 then Trade.quantity trade
                 else - Trade.quantity trade))
             position)) ;;
      position <- on_position (Trade.instrument trade) get ;;
      if TradePosition.quantity position =? 0 then
        on_position (Trade.instrument trade)
          (modify (TradePosition.set_average_price 0%float))
      else ret tt
  end.

(** [get_position(self, instrument)] *)
Definition get_position (instrument : string)
  : M t (option TradePosition.t) :=
  self <- get ;;
  ret (positions self !! instrument).

End TradeRepository.

(** ** Sequences of calls on a repository *)

Inductive call : Type :=
| Register (trade : Trade.t)
| Amend (trade_id : Z) (new_quantity : option Z) (new_price : option float)
| Cancel (trade_id : Z)
| GetPosition (instrument : string).

(** One call, its return value dropped. *)
Definition run_call (c : call) : M TradeRepository.t unit :=
  match c with
  | Register trade => TradeRepository.add_trade trade
  | Amend trade_id new_quantity new_price =>
      TradeRepository.amend_trade trade_id new_quantity new_price
  | Cancel trade_id => TradeRepository.cancel_trade trade_id
  | GetPosition instrument => TradeRepository.get_position instrument ;; ret tt
  end.

(** The repository after a call has completed, by a return or a raise. *)
Definition after (c : call) (repo : TradeRepository.t) : TradeRepository.t :=
  snd (run_call c repo).

(** The caller catches whatever a call raises and goes on. *)
Definition run (calls : list call) (repo : TradeRepository.t)
  : TradeRepository.t :=
  fold_left (λ repo c, after c repo) calls repo.

(** The outcomes of the calls of a sequence, in order. *)
Fixpoint outcomes (calls : list call) (repo : TradeRepository.t)
  : list (outcome unit) :=
  match calls with
  | [] => []
  | c :: calls => fst (run_call c repo) :: outcomes calls (after c repo)
  end.

Inductive reachable : TradeRepository.t → Prop :=
| reachable_init : reachable TradeRepository.init
| reachable_call c repo : reachable repo → reachable (after c repo).

(** The driver at the end of [position_mgmt.py]. *)
Definition aapl_buy_100 : Trade.t :=
  Trade.mk 1 (Date 2022 1 1) "AAPL" 100 100%float "buy".
Definition aapl_buy_50 : Trade.t :=
  Trade.mk 2 (Date 2022 1 2) "AAPL" 50 110%float "buy".
Definition aapl_sell_20 : Trade.t :=
  Trade.mk 3 (Date 2022 1 3) "AAPL" 20 120%float "sell".

Definition example_usage : list call :=
  [Register aapl_buy_100; Register aapl_buy_50; Register aapl_sell_20].

(** [repo] after the three [add_trade] calls of the driver. *)
Definition example_repo : TradeRepository.t :=
  run example_usage TradeRepository.init.

(** A short position: a buy, then a sell of twice as much. *)
Definition short_position : list call :=
  [Register (Trade.mk 1 (Date 2022 1 1) "AAPL" 100 10%float "buy");
   Register (Trade.mk 2 (Date 2022 1 2) "AAPL" 200 10%float "sell")].

Definition short_repo : TradeRepository.t :=
  run short_position TradeRepository.init.

(** The buy that would bring the short position back to zero. *)
Definition cover_buy : Trade.t :=
  Trade.mk 3 (Date 2022 1 3) "AAPL" 100 5%float "buy".

Definition short_then_cover : list call :=
  short_position ++ [Register cover_buy].

(** ** What the methods work on *)

(** The position a registration works on: the stored one, or the fresh
    zero position created for a new instrument. *)
Definition position_for (trade : Trade.t) (self : TradeRepository.t)
  : TradePosition.t :=
  default (TradePosition.init (Trade.instrument trade))
          (TradeRepository.positions self !! Trade.instrument trade).

(** The quantity a cancellation takes off the position: the stored
    quantity for a buy, its negation for any other side. *)
Definition cancelled_quantity (trade : Trade.t) : Z :=
  if (Trade.side trade =? "buy")%string then Trade.quantity trade
  else - Trade.quantity trade.

(** The trade a call applies to a position by [update_position], with the
    position as it is when [update_position] is entered. *)
Definition applied_trade (c : call) (repo : TradeRepository.t)
  : option (Trade.t * TradePosition.t) :=
  match c with
  | Register trade => Some (trade, position_for trade repo)
  | Amend trade_id new_quantity new_price =>
      match TradeRepository.trades repo !! trade_id with
      | Some trade =>
          match TradeRepository.positions repo !! Trade.instrument trade with
          | Some position =>
              Some (TradeRepository.amend_fields new_quantity new_price trade,
                    position)
          | None => None
          end
      | None => None
      end
  | Cancel _ | GetPosition _ => None
  end.

(** ** Properties of a repository *)

(** Every stored trade has a position for its instrument. *)
Definition trades_have_positions (repo : TradeRepository.t) : Prop :=
  ∀ (trade_id : Z) (trade : Trade.t),
    TradeRepository.trades repo !! trade_id = Some trade →
    is_Some (TradeRepository.positions repo !! Trade.instrument trade).

(** Every stored trade sits under its own identifier. *)
Definition trades_keyed_by_id (repo : TradeRepository.t) : Prop :=
  ∀ (trade_id : Z) (trade : Trade.t),
    TradeRepository.trades repo !! trade_id = Some trade →
    Trade.trade_id trade = trade_id.

(** A position of quantity [0] has average price [0.0]. *)
Definition zero_quantity_invariant (repo : TradeRepository.t) : Prop :=
  ∀ (instrument : string) (position : TradePosition.t),
    TradeRepository.positions repo !! instrument = Some position →
    TradePosition.quantity position = 0 →
    TradePosition.average_price position = 0%float.

(** The repositories reached by calls that all returned. *)
Inductive reachable_quietly : TradeRepository.t → Prop :=
| reachable_quietly_init : reachable_quietly TradeRepository.init
| reachable_quietly_call c repo :
    reachable_quietly repo →
    fst (run_call c repo) = Returned tt →
    reachable_quietly (after c repo).

(** ** Outcomes *)

(** Whether [float(z)] succeeds. *)
Definition int_fits_float (z : Z) : bool :=
  match float_of_int z with
  | Some _ => true
  | None => false
  end.

(** The three [int] operands a buy converts: the quantity before, the
    trade's quantity and the quantity after. *)
Definition buy_operands_fit (trade : Trade.t) (self : TradePosition.t) : bool :=
  int_fits_float (TradePosition.quantity self)
  && int_fits_float (Trade.quantity trade)
  && int_fits_float (TradePosition.quantity self + Trade.quantity trade).

(** The outcome of [update_position], computed from the side, the two
    quantities and nothing else. *)
Definition update_position_outcome (trade : Trade.t) (self : TradePosition.t)
  : outcome unit :=
  if (Trade.side trade =? "buy")%string then
    if buy_operands_fit trade self then
      if TradePosition.quantity self + Trade.quantity trade =? 0
      then Raised ZeroDivisionError
      else Returned tt
    else Raised OverflowError
  else Returned tt.

(** How the outcome [res] of a call that applies [trade] to the position
    [self] depends on them.  For a buy whose three [int] operands convert:
    [ZeroDivisionError] exactly when the position's quantity is the
    negation of the trade's, a return otherwise.  For a buy with an operand
    that does not convert: [OverflowError].  For any other side: a
    return. *)
Definition raises_as_characterised (trade : Trade.t) (self : TradePosition.t)
    (res : outcome unit) : Prop :=
  if (Trade.side trade =? "buy")%string then
    if buy_operands_fit trade self then
      (res = Raised ZeroDivisionError
       ↔ TradePosition.quantity self = - Trade.quantity trade)
      ∧ (res = Returned tt
         ↔ TradePosition.quantity self ≠ - Trade.quantity trade)
    else res = Raised OverflowError
  else res = Returned tt.

(** ** Further inputs *)

(** The average price the walk-through announces after the third trade,
    103.846153..., to the six decimals given. *)
Definition announced_average (a : float) : bool :=
  ((103846153 / 1000000 <=? a) && (a <=? 103846154 / 1000000))%float.

(** A sell of 2^1024 units on a fresh repository, then a buy of as many. *)
Definition huge_sell : Trade.t :=
  Trade.mk 1 (Date 2022 1 1) "AAPL" (2 ^ 1024) 1%float "sell".
Definition huge_buy : Trade.t :=
  Trade.mk 2 (Date 2022 1 2) "AAPL" (2 ^ 1024) 1%float "buy".

(** ** Quantities and histories *)

(** What [update_position] adds to the quantity of a position, by the side
    of the trade. *)
Definition signed_quantity (trade : Trade.t) : Z :=
  if (Trade.side trade =? "buy")%string then Trade.quantity trade
  else if (Trade.side trade =? "sell")%string then - Trade.quantity trade
  else 0.

(** The quantity held in an instrument; [0] while it has no position. *)
Definition position_quantity (instrument : string) (repo : TradeRepository.t)
  : Z :=
  from_option TradePosition.quantity 0
    (TradeRepository.positions repo !! instrument).

(** The signed quantities of the stored trades of an instrument, summed. *)
Definition net_quantity (instrument : string) (trades : gmap Z Trade.t) : Z :=
  map_fold
    (λ _ trade acc,
       if (Trade.instrument trade =? instrument)%string
       then acc + signed_quantity trade
       else acc)
    0 trades.

(** What a call adds to the quantity held in an instrument. *)
Definition quantity_effect (c : call) (repo : TradeRepository.t)
    (instrument : string) : Z :=
  match c with
  | Register trade =>
      if (Trade.instrument trade =? instrument)%string
      then signed_quantity trade else 0
  | Amend trade_id new_quantity new_price =>
      match TradeRepository.trades repo !! trade_id with
      | Some trade =>
          if (Trade.instrument trade =? instrument)%string
          then signed_quantity
                 (TradeRepository.amend_fields new_quantity new_price trade)
          else 0
      | None => 0
      end
  | Cancel trade_id =>
      match TradeRepository.trades repo !! trade_id with
      | Some trade =>
          if (Trade.instrument trade =? instrument)%string
          then - cancelled_quantity trade else 0
      | None => 0
      end
  | GetPosition _ => 0
  end.

(** The instrument whose position a call works on, and the identifier
    whose entry of the trade map it writes or deletes. *)
Definition touched_instrument (c : call) (repo : TradeRepository.t)
  : option string :=
  match c with
  | Register trade => Some (Trade.instrument trade)
  | Amend trade_id _ _ | Cancel trade_id =>
      Trade.instrument <$> TradeRepository.trades repo !! trade_id
  | GetPosition _ => None
  end.

Definition touched_trade_id (c : call) : option Z :=
  match c with
  | Register trade => Some (Trade.trade_id trade)
  | Amend trade_id _ _ | Cancel trade_id => Some trade_id
  | GetPosition _ => None
  end.

(** The instruments of the trades a sequence of calls registers. *)
Fixpoint registered_instruments (calls : list call) : gset string :=
  match calls with
  | [] => ∅
  | Register trade :: calls =>
      {[Trade.instrument trade]} ∪ registered_instruments calls
  | _ :: calls => registered_instruments calls
  end.

(** The repositories of a caller that never amends, never registers under
    an identifier that is still stored, and only registers buys and
    sells. *)
Inductive reachable_plainly : TradeRepository.t → Prop :=
| reachable_plainly_init : reachable_plainly TradeRepository.init
| reachable_plainly_register trade repo :
    reachable_plainly repo →
    TradeRepository.trades repo !! Trade.trade_id trade = None →
    Trade.side trade = "buy"%string ∨ Trade.side trade = "sell"%string →
    reachable_plainly (after (Register trade) repo)
| reachable_plainly_cancel trade_id repo :
    reachable_plainly repo →
    reachable_plainly (after (Cancel trade_id) repo)
| reachable_plainly_get_position instrument repo :
    reachable_plainly repo →
    reachable_plainly (after (GetPosition instrument) repo).

(** ** A load of registrations, amendments and cancellations *)

(** The identifiers [0, 1, ..., n-1]; none when [n] is not positive. *)
Definition range (n : Z) : list Z := map Z.of_nat (seq 0 (Z.to_nat n)).

(** The buy of 100 units at 100.0 that the load registers under the
    identifier [i], and the same trade once amended to 150 units at
    120.0. *)
Definition load_trade (today : Z → date) (i : Z) : Trade.t :=
  Trade.mk i (today i) "AAPL" 100 100%float "buy".

Definition load_amended_trade (today : Z → date) (i : Z) : Trade.t :=
  Trade.mk i (today i) "AAPL" 150 120%float "buy".

(** [n] registrations, then the amendment of each registered trade, then
    the cancellation of each. *)
Definition load_calls (n : Z) (today : Z → date) : list call :=
  map (λ i, Register (load_trade today i)) (range n)
  ++ map (λ i, Amend i (Some 150) (Some 120%float)) (range n)
  ++ map Cancel (range n).

(** The repository between two calls of the load: the identifiers from
    [lo] up to [hi] are stored, those below [amended] with the amended
    trade; ["AAPL"] is the only instrument that may have a position, and
    holds [quantity]. *)
Definition loop_state (today : Z → date) (lo hi amended quantity : Z)
    (has_position : bool) (repo : TradeRepository.t) : Prop :=
  reachable repo
  ∧ (∀ j : Z,
       TradeRepository.trades repo !! j =
         if bool_decide (lo ≤ j < hi)
         then Some (if bool_decide (j < amended)
                    then load_amended_trade today j
                    else load_trade today j)
         else None)
  ∧ position_quantity "AAPL" repo = quantity
  ∧ dom (TradeRepository.positions repo)
    = if has_position then {["AAPL"%string]} else ∅.

(** The short position, the buy that raises on covering it, and the three
    trades cancelled. *)
Definition covered_and_cancelled_example : TradeRepository.t :=
  run (short_then_cover ++ [Cancel 1; Cancel 2; Cancel 3])
      TradeRepository.init.

(** ** The position aggregator, branch by branch *)

(** Small [int]s convert exactly; [0] is the one that converts to [0.0]. *)
Example float_of_int_0 : float_of_int 0 = Some 0%float.
Proof. reflexivity. Qed.

Example float_of_int_1 :
  float_of_int 1 = Some 1%float ∧ float_of_int (-1) = Some (-1)%float.
Proof. split; reflexivity. Qed.

Example float_of_int_150 : float_of_int 150 = Some 150%float.
Proof. reflexivity. Qed.

(** Beyond 2^53 the conversion rounds to the nearest float, ties to even. *)
Example float_of_int_rounds :
  float_of_int (2 ^ 53 + 1) = Some 9007199254740992%float
  ∧ float_of_int (2 ^ 53 + 3) = Some 9007199254740996%float.
Proof. split; vm_compute; reflexivity. Qed.

(** A sell: the quantity goes down, the average price is reset at zero and
    kept otherwise; nothing is raised. *)
Lemma update_position_sell (trade : Trade.t) (self : TradePosition.t) :
  Trade.side trade = "sell"%string →
  TradePosition.update_position trade self =
    (Returned tt,
     let q := TradePosition.quantity self - Trade.quantity trade in
     TradePosition.mk (TradePosition.instrument self) q
       (if q =? 0 then 0%float else TradePosition.average_price self)).
Proof.
  intros Hside. unfold TradePosition.update_position. rewrite Hside.
  cbn. unfold bind, modify, get. cbn.
  destruct (_ =? 0); reflexivity.
Qed.

(** A side that is neither ["buy"] nor ["sell"] falls through both tests. *)
Lemma update_position_other (trade : Trade.t) (self : TradePosition.t) :
  Trade.side trade ≠ "buy"%string → Trade.side trade ≠ "sell"%string →
  TradePosition.update_position trade self = (Returned tt, self).
Proof.
  intros Hb Hs. unfold TradePosition.update_position.
  apply String.eqb_neq in Hb, Hs. rewrite Hb, Hs. reflexivity.
Qed.

(** A buy, with the three conversions and the division spelled out. *)
Lemma update_position_buy (trade : Trade.t) (self : TradePosition.t) :
  Trade.side trade = "buy"%string →
  TradePosition.update_position trade self =
    let q := TradePosition.quantity self + Trade.quantity trade in
    let self' := TradePosition.set_quantity q self in
    match float_of_int (q - Trade.quantity trade),
          float_of_int (Trade.quantity trade),
          float_of_int q with
    | Some old_qty, Some trade_qty, Some new_qty =>
        if q =? 0 then (Raised ZeroDivisionError, self')
        else (Returned tt,
              TradePosition.set_average_price
                ((TradePosition.average_price self * old_qty
                  + Trade.price trade * trade_qty) / new_qty)%float self')
    | _, _, _ => (Raised OverflowError, self')
    end.
Proof.
  intros Hside. unfold TradePosition.update_position. rewrite Hside.
  cbn. unfold bind, modify, get, as_float. cbn.
  destruct (float_of_int (_ - _)); [|reflexivity].
  destruct (float_of_int (Trade.quantity trade)); [|reflexivity].
  destruct (float_of_int (_ + _)); [|reflexivity].
  cbn. destruct (_ =? 0); reflexivity.
Qed.

(** Case analysis on the side of [trade], each case rewritten with the
    lemma of its branch. *)
Ltac by_side trade :=
  let Hbuy := fresh "Hbuy" in
  let Hsell := fresh "Hsell" in
  destruct (Trade.side trade =? "buy")%string eqn:Hbuy;
  [ apply String.eqb_eq in Hbuy;
    rewrite ?(update_position_buy trade _ Hbuy)
  | apply String.eqb_neq in Hbuy;
    destruct (Trade.side trade =? "sell")%string eqn:Hsell;
    [ apply String.eqb_eq in Hsell;
      rewrite ?(update_position_sell trade _ Hsell)
    | apply String.eqb_neq in Hsell;
      rewrite ?(update_position_other trade _ Hbuy Hsell) ] ].

(** ** The repository's methods in closed form *)

Lemma on_position_found {A : Type} (instrument : string)
    (m : M TradePosition.t A) (self : TradeRepository.t)
    (position : TradePosition.t) :
  TradeRepository.positions self !! instrument = Some position →
  TradeRepository.on_position instrument m self =
    (fst (m position),
     TradeRepository.set_positions <[instrument := snd (m position)]> self).
Proof.
  intros Hpos. unfold TradeRepository.on_position. rewrite Hpos.
  destruct (m position); reflexivity.
Qed.

Lemma add_trade_closed (trade : Trade.t) (self : TradeRepository.t) :
  TradeRepository.add_trade trade self =
    let res := TradePosition.update_position trade (position_for trade self) in
    (fst res,
     TradeRepository.mk
       (<[Trade.trade_id trade := trade]> (TradeRepository.trades self))
       (<[Trade.instrument trade := snd res]>
          (TradeRepository.positions self))).
Proof.
  unfold TradeRepository.add_trade, position_for, bind, modify, get. cbn.
  destruct (TradeRepository.positions self !! Trade.instrument trade)
    as [position|] eqn:Hpos; cbn.
  - erewrite on_position_found by (cbn; exact Hpos). reflexivity.
  - erewrite on_position_found by (cbn; apply lookup_insert_eq).
    unfold TradeRepository.set_positions. cbn.
    rewrite insert_insert_eq. reflexivity.
Qed.

Lemma amend_fields_instrument (new_quantity : option Z)
    (new_price : option float) (trade : Trade.t) :
  Trade.instrument (TradeRepository.amend_fields new_quantity new_price trade)
  = Trade.instrument trade.
Proof.
  unfold TradeRepository.amend_fields.
  destruct new_quantity as [q|], new_price as [p|]; cbn;
    repeat destruct (truthy_int _); repeat destruct (truthy_float _);
    reflexivity.
Qed.

Lemma amend_fields_trade_id (new_quantity : option Z)
    (new_price : option float) (trade : Trade.t) :
  Trade.trade_id (TradeRepository.amend_fields new_quantity new_price trade)
  = Trade.trade_id trade.
Proof.
  unfold TradeRepository.amend_fields.
  destruct new_quantity as [q|], new_price as [p|]; cbn;
    repeat destruct (truthy_int _); repeat destruct (truthy_float _);
    reflexivity.
Qed.

Lemma amend_fields_side (new_quantity : option Z)
    (new_price : option float) (trade : Trade.t) :
  Trade.side (TradeRepository.amend_fields new_quantity new_price trade)
  = Trade.side trade.
Proof.
  unfold TradeRepository.amend_fields.
  destruct new_quantity as [q|], new_price as [p|]; cbn;
    repeat destruct (truthy_int _); repeat destruct (truthy_float _);
    reflexivity.
Qed.

Lemma amend_trade_unknown (trade_id : Z) (new_quantity : option Z)
    (new_price : option float) (self : TradeRepository.t) :
  TradeRepository.trades self !! trade_id = None →
  TradeRepository.amend_trade trade_id new_quantity new_price self
  = (Returned tt, self).
Proof.
  intros Hid. unfold TradeRepository.amend_trade, bind, get. cbn.
  rewrite Hid. reflexivity.
Qed.

Lemma amend_trade_closed (trade_id : Z) (new_quantity : option Z)
    (new_price : option float) (self : TradeRepository.t)
    (trade : Trade.t) (position : TradePosition.t) :
  TradeRepository.trades self !! trade_id = Some trade →
  TradeRepository.positions self !! Trade.instrument trade = Some position →
  TradeRepository.amend_trade trade_id new_quantity new_price self =
    let trade' := TradeRepository.amend_fields new_quantity new_price trade in
    let res := TradePosition.update_position trade' position in
    (fst res,
     TradeRepository.mk
       (<[trade_id := trade']> (TradeRepository.trades self))
       (<[Trade.instrument trade := snd res]>
          (TradeRepository.positions self))).
Proof.
  intros Hid Hpos. unfold TradeRepository.amend_trade, bind, get, modify. cbn.
  rewrite Hid. cbn.
  erewrite on_position_found
    by (cbn; rewrite amend_fields_instrument; exact Hpos).
  rewrite amend_fields_instrument. reflexivity.
Qed.

(** Without a position for the trade's instrument the subscript raises,
    after the stored trade has been mutated. *)
Lemma amend_trade_no_position (trade_id : Z) (new_quantity : option Z)
    (new_price : option float) (self : TradeRepository.t) (trade : Trade.t) :
  TradeRepository.trades self !! trade_id = Some trade →
  TradeRepository.positions self !! Trade.instrument trade = None →
  TradeRepository.amend_trade trade_id new_quantity new_price self =
    (Raised KeyError,
     TradeRepository.set_trades
       <[trade_id :=
           TradeRepository.amend_fields new_quantity new_price trade]> self).
Proof.
  intros Hid Hpos. unfold TradeRepository.amend_trade, bind, get, modify. cbn.
  rewrite Hid. cbn. unfold TradeRepository.on_position. cbn.
  rewrite amend_fields_instrument, Hpos. reflexivity.
Qed.

Lemma cancel_trade_unknown (trade_id : Z) (self : TradeRepository.t) :
  TradeRepository.trades self !! trade_id = None →
  TradeRepository.cancel_trade trade_id self = (Returned tt, self).
Proof.
  intros Hid. unfold TradeRepository.cancel_trade, bind, get. cbn.
  rewrite Hid. reflexivity.
Qed.

Lemma cancel_trade_closed (trade_id : Z) (self : TradeRepository.t)
    (trade : Trade.t) (position : TradePosition.t) :
  TradeRepository.trades self !! trade_id = Some trade →
  TradeRepository.positions self !! Trade.instrument trade = Some position →
  TradeRepository.cancel_trade trade_id self =
    let q := TradePosition.quantity position - cancelled_quantity trade in
    (Returned tt,
     TradeRepository.mk
       (delete trade_id (TradeRepository.trades self))
       (<[Trade.instrument trade :=
            TradePosition.mk (TradePosition.instrument position) q
              (if q =? 0 then 0%float
               else TradePosition.average_price position)]>
          (TradeRepository.positions self))).
Proof.
  intros Hid Hpos. unfold TradeRepository.cancel_trade, bind, get, modify. cbn.
  rewrite Hid. cbn.
  erewrite on_position_found by (cbn; exact Hpos). cbn.
  erewrite on_position_found by (cbn; apply lookup_insert_eq). cbn.
  fold (cancelled_quantity trade).
  destruct (_ =? 0) eqn:Hq.
  - erewrite on_position_found by (cbn; apply lookup_insert_eq). cbn.
    unfold TradeRepository.set_positions, TradePosition.set_average_price.
    cbn. rewrite !insert_insert_eq. reflexivity.
  - unfold TradeRepository.set_positions. cbn.
    rewrite !insert_insert_eq. reflexivity.
Qed.

Lemma cancel_trade_no_position (trade_id : Z) (self : TradeRepository.t)
    (trade : Trade.t) :
  TradeRepository.trades self !! trade_id = Some trade →
  TradeRepository.positions self !! Trade.instrument trade = None →
  TradeRepository.cancel_trade trade_id self =
    (Raised KeyError, TradeRepository.set_trades (delete trade_id) self).
Proof.
  intros Hid Hpos. unfold TradeRepository.cancel_trade, bind, get, modify. cbn.
  rewrite Hid. cbn. unfold TradeRepository.on_position. cbn.
  rewrite Hpos. reflexivity.
Qed.

Lemma get_position_closed (instrument : string) (self : TradeRepository.t) :
  TradeRepository.get_position instrument self =
    (Returned (TradeRepository.positions self !! instrument), self).
Proof. reflexivity. Qed.

(** ** Invariants of the reachable repositories *)

Lemma after_register (trade : Trade.t) (repo : TradeRepository.t) :
  after (Register trade) repo =
    TradeRepository.mk
      (<[Trade.trade_id trade := trade]> (TradeRepository.trades repo))
      (<[Trade.instrument trade :=
           snd (TradePosition.update_position trade (position_for trade repo))]>
         (TradeRepository.positions repo)).
Proof. unfold after, run_call. rewrite add_trade_closed. reflexivity. Qed.

Lemma after_get_position (instrument : string) (repo : TradeRepository.t) :
  after (GetPosition instrument) repo = repo.
Proof. reflexivity. Qed.

Lemma after_trades_have_positions (c : call) (repo : TradeRepository.t) :
  trades_have_positions repo → trades_have_positions (after c repo).
Proof.
  intros Hinv. destruct c as [trade|tid nq np|tid|instr].
  - rewrite after_register. intros tid' trade'. cbn.
    rewrite lookup_insert_Some, lookup_insert_is_Some'.
    intros [[_ <-]|[_ Hin]]; [left; reflexivity | right; eauto].
  - unfold after, run_call.
    destruct (TradeRepository.trades repo !! tid) as [trade|] eqn:Hid;
      [|rewrite amend_trade_unknown by exact Hid; exact Hinv].
    destruct (Hinv _ _ Hid) as [position Hpos].
    rewrite (amend_trade_closed _ _ _ _ _ _ Hid Hpos).
    intros tid' trade'. cbn.
    rewrite lookup_insert_Some, lookup_insert_is_Some'.
    intros [[_ <-]|[_ Hin]].
    + left. symmetry. apply amend_fields_instrument.
    + right. eauto.
  - unfold after, run_call.
    destruct (TradeRepository.trades repo !! tid) as [trade|] eqn:Hid;
      [|rewrite cancel_trade_unknown by exact Hid; exact Hinv].
    destruct (Hinv _ _ Hid) as [position Hpos].
    rewrite (cancel_trade_closed _ _ _ _ Hid Hpos).
    intros tid' trade'. cbn.
    rewrite lookup_delete_Some, lookup_insert_is_Some'.
    intros [_ Hin]. right. eauto.
  - rewrite after_get_position. exact Hinv.
Qed.

Lemma reachable_trades_have_positions (repo : TradeRepository.t) :
  reachable repo → trades_have_positions repo.
Proof.
  induction 1 as [|c repo _ IH].
  - intros tid trade. cbn. rewrite lookup_empty. discriminate.
  - apply after_trades_have_positions, IH.
Qed.

Lemma reachable_trades_keyed_by_id (repo : TradeRepository.t) :
  reachable repo → trades_keyed_by_id repo.
Proof.
  induction 1 as [|c repo Hreach IH].
  { intros tid trade. cbn. rewrite lookup_empty. discriminate. }
  pose proof (reachable_trades_have_positions _ Hreach) as Hinv.
  destruct c as [trade|tid nq np|tid|instr].
  - rewrite after_register. intros tid' trade'. cbn.
    rewrite lookup_insert_Some. intros [[<- <-]|[_ Hin]]; eauto.
  - unfold after, run_call.
    destruct (TradeRepository.trades repo !! tid) as [trade|] eqn:Hid;
      [|rewrite amend_trade_unknown by exact Hid; exact IH].
    destruct (Hinv _ _ Hid) as [position Hpos].
    rewrite (amend_trade_closed _ _ _ _ _ _ Hid Hpos).
    intros tid' trade'. cbn.
    rewrite lookup_insert_Some. intros [[<- <-]|[_ Hin]]; [|eauto].
    rewrite amend_fields_trade_id. eauto.
  - unfold after, run_call.
    destruct (TradeRepository.trades repo !! tid) as [trade|] eqn:Hid;
      [|rewrite cancel_trade_unknown by exact Hid; exact IH].
    destruct (Hinv _ _ Hid) as [position Hpos].
    rewrite (cancel_trade_closed _ _ _ _ Hid Hpos).
    intros tid' trade'. cbn.
    rewrite lookup_delete_Some. intros [_ Hin]. eauto.
  - rewrite after_get_position. exact IH.
Qed.

Lemma run_app (calls calls' : list call) (repo : TradeRepository.t) :
  run (calls ++ calls') repo = run calls' (run calls repo).
Proof. unfold run. apply fold_left_app. Qed.

Lemma run_reachable (calls : list call) (repo : TradeRepository.t) :
  reachable repo → reachable (run calls repo).
Proof.
  revert repo. induction calls as [|c calls IH]; intros repo Hreach.
  - exact Hreach.
  - cbn. apply IH, reachable_call, Hreach.
Qed.

Lemma example_repo_reachable : reachable example_repo.
Proof. apply run_reachable, reachable_init. Qed.

Lemma short_repo_reachable : reachable short_repo.
Proof. apply run_reachable, reachable_init. Qed.

Lemma reachable_run (repo : TradeRepository.t) :
  reachable repo → ∃ calls, repo = run calls TradeRepository.init.
Proof.
  induction 1 as [|c repo _ [calls ->]].
  - exists []. reflexivity.
  - exists (calls ++ [c]). rewrite run_app. reflexivity.
Qed.

(** ** What a call can raise *)

Example int_fits_float_small : int_fits_float 100 = true.
Proof. reflexivity. Qed.

Example int_fits_float_largest :
  int_fits_float (2 ^ 1024 - 2 ^ 970 - 1) = true.
Proof. vm_compute. reflexivity. Qed.

Example int_fits_float_too_large : int_fits_float (2 ^ 1024 - 2 ^ 970) = false.
Proof. vm_compute. reflexivity. Qed.

Example int_fits_float_googol4 : int_fits_float (10 ^ 400) = false.
Proof. vm_compute. reflexivity. Qed.

Lemma update_position_fst (trade : Trade.t) (self : TradePosition.t) :
  fst (TradePosition.update_position trade self)
  = update_position_outcome trade self.
Proof.
  unfold update_position_outcome. by_side trade; [|reflexivity..].
  cbn. unfold buy_operands_fit, int_fits_float.
  replace (TradePosition.quantity self + Trade.quantity trade
           - Trade.quantity trade)
    with (TradePosition.quantity self) by lia.
  destruct (float_of_int (TradePosition.quantity self)); [|reflexivity].
  destruct (float_of_int (Trade.quantity trade)); [|reflexivity].
  destruct (float_of_int (_ + _)); [|reflexivity].
  cbn. destruct (_ =? 0); reflexivity.
Qed.

(** Whatever the outcome, the quantity has moved by the trade's signed
    quantity. *)
Lemma update_position_quantity (trade : Trade.t) (self : TradePosition.t) :
  TradePosition.quantity (snd (TradePosition.update_position trade self)) =
    if (Trade.side trade =? "buy")%string
    then TradePosition.quantity self + Trade.quantity trade
    else if (Trade.side trade =? "sell")%string
    then TradePosition.quantity self - Trade.quantity trade
    else TradePosition.quantity self.
Proof.
  by_side trade; [|reflexivity..]. cbn.
  repeat (destruct (float_of_int _); [|reflexivity]).
  destruct (_ =? 0); reflexivity.
Qed.

(** A call to [update_position] that returns keeps the zero-quantity
    invariant of the position. *)
Lemma update_position_zero_quantity (trade : Trade.t) (self : TradePosition.t) :
  fst (TradePosition.update_position trade self) = Returned tt →
  (TradePosition.quantity self = 0 →
   TradePosition.average_price self = 0%float) →
  let self' := snd (TradePosition.update_position trade self) in
  TradePosition.quantity self' = 0 →
  TradePosition.average_price self' = 0%float.
Proof.
  by_side trade; cbn.
  - repeat (destruct (float_of_int _); [|discriminate]).
    destruct (_ =? 0) eqn:Hq; [discriminate|]. cbn.
    apply Z.eqb_neq in Hq. intros _ _ Hzero. contradiction.
  - intros _ _ Hzero. apply Z.eqb_eq in Hzero. rewrite Hzero. reflexivity.
  - auto.
Qed.

(** Calls that return keep the zero-quantity invariant of the repository. *)
Lemma after_zero_quantity_invariant (c : call) (repo : TradeRepository.t) :
  trades_have_positions repo →
  zero_quantity_invariant repo →
  fst (run_call c repo) = Returned tt →
  zero_quantity_invariant (after c repo).
Proof.
  intros Hinv Hzero. destruct c as [trade|tid nq np|tid|instr].
  - unfold after, run_call. rewrite add_trade_closed. cbn.
    intros Hret instr position. cbn.
    rewrite lookup_insert_Some. intros [[_ <-]|[_ Hin]]; [|eauto].
    apply update_position_zero_quantity; [exact Hret|].
    unfold position_for.
    destruct (TradeRepository.positions repo !! Trade.instrument trade)
      eqn:Hpos; cbn; eauto.
  - unfold after, run_call.
    destruct (TradeRepository.trades repo !! tid) as [trade|] eqn:Hid;
      [|rewrite amend_trade_unknown by exact Hid; intros _; exact Hzero].
    destruct (Hinv _ _ Hid) as [position Hpos].
    rewrite (amend_trade_closed _ _ _ _ _ _ Hid Hpos). cbn.
    intros Hret instr position'. cbn.
    rewrite lookup_insert_Some. intros [[_ <-]|[_ Hin]]; [|eauto].
    apply update_position_zero_quantity; eauto.
  - unfold after, run_call.
    destruct (TradeRepository.trades repo !! tid) as [trade|] eqn:Hid;
      [|rewrite cancel_trade_unknown by exact Hid; intros _; exact Hzero].
    destruct (Hinv _ _ Hid) as [position Hpos].
    rewrite (cancel_trade_closed _ _ _ _ Hid Hpos). cbn.
    intros _ instr position'. cbn.
    rewrite lookup_insert_Some. intros [[_ <-]|[_ Hin]]; [|eauto].
    cbn. intros Hq. apply Z.eqb_eq in Hq. rewrite Hq. reflexivity.
  - intros _. rewrite after_get_position. exact Hzero.
Qed.

Lemma reachable_quietly_reachable (repo : TradeRepository.t) :
  reachable_quietly repo → reachable repo.
Proof. induction 1; [constructor | apply reachable_call; assumption]. Qed.

(** X12.  As long as no call has raised, the zero-quantity invariant
    holds: every position of quantity [0] has average price [0.0]. *)
Lemma zero_quantity_invariant_quietly (repo : TradeRepository.t) :
  reachable_quietly repo → zero_quantity_invariant repo.
Proof.
  induction 1 as [|c repo Hreach IH Hret].
  - intros instr position. cbn. rewrite lookup_empty. discriminate.
  - apply after_zero_quantity_invariant; [|exact IH|exact Hret].
    apply reachable_trades_have_positions, reachable_quietly_reachable, Hreach.
Qed.

(** ** Floats are compared by computing *)

Lemma float_eqb_false_neq (x y : float) :
  (x =? x)%float = true → (x =? y)%float = false → x ≠ y.
Proof. intros Hrefl Hneq ->. rewrite Hrefl in Hneq. discriminate. Qed.

(** ** The zero-quantity invariant *)

(** C1.  The zero-quantity invariant does not hold of every reachable
    repository.  In [short_then_cover], three registrations with positive
    quantities and prices, the third is a buy that brings the quantity of a
    short position back to [0]: it raises [ZeroDivisionError] after the
    quantity has been updated, and the position is left with quantity [0]
    and average price [10.0]. *)
Theorem zero_quantity_invariant_broken_by_raising_buy :
  outcomes short_then_cover TradeRepository.init
    = [Returned tt; Returned tt; Raised ZeroDivisionError]
  ∧ fst (TradeRepository.get_position "AAPL"
           (run short_then_cover TradeRepository.init))
    = Returned (Some (TradePosition.mk "AAPL" 0 10%float))
  ∧ ¬ (∀ repo, reachable repo → zero_quantity_invariant repo).
Proof.
  split; [vm_compute; reflexivity|].
  split; [vm_compute; reflexivity|].
  intros Hall.
  pose proof (Hall (run short_then_cover TradeRepository.init)
                (run_reachable _ _ reachable_init)
                "AAPL"%string (TradePosition.mk "AAPL" 0 10%float)) as Hzero.
  cbn [TradePosition.quantity TradePosition.average_price] in Hzero.
  assert (10%float = 0%float) as Habs
    by (apply Hzero; [vm_compute|]; reflexivity).
  revert Habs. apply float_eqb_false_neq; reflexivity.
Qed.

(** ** The driver's scenario *)

Example announced_average_13500_130 :
  announced_average (13500 / 130)%float = true.
Proof. reflexivity. Qed.

(** C3, as stated, fails: after the three registrations the position has
    quantity [130], but its average price is not the announced
    103.846153.... *)
Lemma example_usage_average_not_announced :
  ¬ ∃ position : TradePosition.t,
      fst (TradeRepository.get_position "AAPL" example_repo)
        = Returned (Some position)
      ∧ TradePosition.quantity position = 130
      ∧ announced_average (TradePosition.average_price position) = true.
Proof.
  intros (position & Hget & _ & Havg).
  vm_compute in Hget. injection Hget as <-.
  vm_compute in Havg. discriminate Havg.
Qed.

(** C3, amended.  On a fresh repository the three registrations all return;
    afterwards [get_position("AAPL")] has quantity [130] and the average
    price [(100*100 + 50*110) / 150 = 103.333...] that the two buys
    produced, which the sell has left unchanged. *)
Theorem example_usage_position :
  outcomes example_usage TradeRepository.init
    = [Returned tt; Returned tt; Returned tt]
  ∧ fst (TradeRepository.get_position "AAPL"
           (run [Register aapl_buy_100; Register aapl_buy_50]
                TradeRepository.init))
    = Returned (Some (TradePosition.mk "AAPL" 150 (15500 / 150)%float))
  ∧ fst (TradeRepository.get_position "AAPL" example_repo)
    = Returned (Some (TradePosition.mk "AAPL" 130 (15500 / 150)%float))
  ∧ ((1033333 / 10000 <? 15500 / 150)
     && (15500 / 150 <? 1033334 / 10000))%float = true.
Proof. repeat split; vm_compute; reflexivity. Qed.

(** ** Selling *)

(** C7.  A sell whose quantity differs from the position's quantity returns
    and changes the quantity only: the average price is the one before. *)
Theorem sell_preserves_average_price
    (trade : Trade.t) (self : TradePosition.t) :
  Trade.side trade = "sell"%string →
  Trade.quantity trade ≠ TradePosition.quantity self →
  TradePosition.update_position trade self =
    (Returned tt,
     TradePosition.mk (TradePosition.instrument self)
       (TradePosition.quantity self - Trade.quantity trade)
       (TradePosition.average_price self)).
Proof.
  intros Hside Hne. rewrite (update_position_sell _ _ Hside). cbn.
  destruct (_ =? 0) eqn:Hq; [|reflexivity].
  apply Z.eqb_eq in Hq. lia.
Qed.

Lemma sell_preserves_average_price_witness :
  Trade.side aapl_sell_20 = "sell"%string
  ∧ Trade.quantity aapl_sell_20
    ≠ TradePosition.quantity (TradePosition.mk "AAPL" 150 (15500 / 150)%float)
  ∧ TradePosition.update_position aapl_sell_20
      (TradePosition.mk "AAPL" 150 (15500 / 150)%float)
    = (Returned tt, TradePosition.mk "AAPL" 130 (15500 / 150)%float).
Proof.
  split; [reflexivity|]. split; [cbn; lia|].
  apply (sell_preserves_average_price aapl_sell_20
           (TradePosition.mk "AAPL" 150 (15500 / 150)%float));
    [reflexivity | cbn; lia].
Defined.

(** ** Unknown identifiers *)

(** C6.  With an identifier that is not in the trade map, [amend_trade] and
    [cancel_trade] return without raising and leave the repository, trades
    and positions, as it was. *)
Theorem unknown_trade_id_is_noop (repo : TradeRepository.t) (trade_id : Z)
    (new_quantity : option Z) (new_price : option float) :
  TradeRepository.trades repo !! trade_id = None →
  TradeRepository.amend_trade trade_id new_quantity new_price repo
    = (Returned tt, repo)
  ∧ TradeRepository.cancel_trade trade_id repo = (Returned tt, repo).
Proof.
  intros Hid. split.
  - apply amend_trade_unknown, Hid.
  - apply cancel_trade_unknown, Hid.
Qed.

Lemma unknown_trade_id_is_noop_witness :
  TradeRepository.trades example_repo !! 7 = None
  ∧ TradeRepository.amend_trade 7 (Some 70) (Some 120%float) example_repo
    = (Returned tt, example_repo)
  ∧ TradeRepository.cancel_trade 7 example_repo = (Returned tt, example_repo).
Proof.
  split; [vm_compute; reflexivity|].
  apply (unknown_trade_id_is_noop example_repo 7 (Some 70) (Some 120%float)).
  vm_compute. reflexivity.
Defined.

(** ** Cancelling *)

(** C5.  Cancelling a registered trade of a reachable repository returns,
    removes the trade from the trade map and moves the quantity of the
    instrument's position by the stored trade's quantity: down for a buy,
    up for a sell.  The average price becomes [0.0] when the new quantity
    is [0] and is kept otherwise. *)
Theorem cancel_trade_reverses_quantity (repo : TradeRepository.t)
    (trade_id : Z) (trade : Trade.t) :
  reachable repo →
  TradeRepository.trades repo !! trade_id = Some trade →
  ∃ position : TradePosition.t,
    TradeRepository.positions repo !! Trade.instrument trade = Some position
    ∧ let q := TradePosition.quantity position - cancelled_quantity trade in
      (Trade.side trade = "buy"%string →
       q = TradePosition.quantity position - Trade.quantity trade)
      ∧ (Trade.side trade = "sell"%string →
         q = TradePosition.quantity position + Trade.quantity trade)
      ∧ TradeRepository.cancel_trade trade_id repo =
          (Returned tt,
           TradeRepository.mk
             (delete trade_id (TradeRepository.trades repo))
             (<[Trade.instrument trade :=
                  TradePosition.mk (TradePosition.instrument position) q
                    (if q =? 0 then 0%float
                     else TradePosition.average_price position)]>
                (TradeRepository.positions repo))).
Proof.
  intros Hreach Hid.
  destruct (reachable_trades_have_positions _ Hreach _ _ Hid)
    as [position Hpos].
  exists position. split; [exact Hpos|]. cbn zeta.
  split; [|split].
  - intros Hside. unfold cancelled_quantity. rewrite Hside. reflexivity.
  - intros Hside. unfold cancelled_quantity. rewrite Hside. cbn. lia.
  - apply cancel_trade_closed; assumption.
Qed.

Lemma cancel_trade_reverses_quantity_witness :
  TradeRepository.trades example_repo !! 1 = Some aapl_buy_100
  ∧ TradeRepository.trades (after (Cancel 1) example_repo) !! 1 = None
  ∧ TradeRepository.positions (after (Cancel 1) example_repo) !! "AAPL"%string
    = Some (TradePosition.mk "AAPL" 30 (15500 / 150)%float).
Proof.
  assert (TradeRepository.trades example_repo !! 1 = Some aapl_buy_100)
    as Hid by (vm_compute; reflexivity).
  split; [exact Hid|].
  destruct (cancel_trade_reverses_quantity example_repo 1 aapl_buy_100
              example_repo_reachable Hid)
    as (position & Hpos & _ & _ & Hcancel).
  unfold after, run_call. rewrite Hcancel.
  vm_compute in Hpos. injection Hpos as <-.
  split; vm_compute; reflexivity.
Defined.

(** A cancellation takes off the quantity stored at that time: trade 2,
    registered with 50 and amended to 70, takes 70 off the quantity. *)
Example cancel_after_amend :
  TradePosition.quantity
    <$> TradeRepository.positions
          (after (Amend 2 (Some 70) None) example_repo) !! "AAPL"%string
    = Some 200
  ∧ TradePosition.quantity
      <$> TradeRepository.positions
            (after (Cancel 2) (after (Amend 2 (Some 70) None) example_repo))
          !! "AAPL"%string
    = Some 130.
Proof. split; vm_compute; reflexivity. Qed.

(** ** Amending *)

Lemma amend_fields_falsy (trade : Trade.t) :
  TradeRepository.amend_fields (Some 0) (Some 0%float) trade = trade.
Proof. reflexivity. Qed.

(** C8.  Amending a registered trade of a reachable repository with
    [new_quantity=0] and [new_price=0] leaves the trade map, and so the
    stored trade's quantity and price, as they were; the unmodified trade
    is nevertheless applied once more to the instrument's position by
    [update_position]. *)
Theorem amend_trade_zero_arguments (repo : TradeRepository.t)
    (trade_id : Z) (trade : Trade.t) :
  reachable repo →
  TradeRepository.trades repo !! trade_id = Some trade →
  ∃ position : TradePosition.t,
    TradeRepository.positions repo !! Trade.instrument trade = Some position
    ∧ let res := TradePosition.update_position trade position in
      TradeRepository.amend_trade trade_id (Some 0) (Some 0%float) repo =
        (fst res,
         TradeRepository.mk
           (TradeRepository.trades repo)
           (<[Trade.instrument trade := snd res]>
              (TradeRepository.positions repo))).
Proof.
  intros Hreach Hid.
  destruct (reachable_trades_have_positions _ Hreach _ _ Hid)
    as [position Hpos].
  exists position. split; [exact Hpos|]. cbn zeta.
  rewrite (amend_trade_closed _ _ _ _ _ _ Hid Hpos). cbn zeta.
  rewrite amend_fields_falsy, (insert_id _ _ _ Hid). reflexivity.
Qed.

Lemma amend_trade_zero_arguments_witness :
  TradeRepository.trades example_repo !! 2 = Some aapl_buy_50
  ∧ TradeRepository.trades
      (after (Amend 2 (Some 0) (Some 0%float)) example_repo)
    = TradeRepository.trades example_repo
  ∧ TradeRepository.positions
      (after (Amend 2 (Some 0) (Some 0%float)) example_repo) !! "AAPL"%string
    = Some (TradePosition.mk "AAPL" 180
              ((15500 / 150 * 130 + 110 * 50) / 180)%float).
Proof.
  assert (TradeRepository.trades example_repo !! 2 = Some aapl_buy_50)
    as Hid by (vm_compute; reflexivity).
  split; [exact Hid|].
  destruct (amend_trade_zero_arguments example_repo 2 aapl_buy_50
              example_repo_reachable Hid)
    as (position & Hpos & Hamend).
  unfold after, run_call. rewrite Hamend. split; [reflexivity|].
  vm_compute in Hpos. injection Hpos as <-. vm_compute. reflexivity.
Defined.

(** The two guarded assignments, field by field: a [new_quantity] that is
    given and is not [0] is written to [quantity], a [new_price] that is
    given and does not compare equal to [0.0] is written to [price]; every
    other field, and a field whose argument is falsy, stays. *)
Lemma amend_fields_closed (new_quantity : option Z)
    (new_price : option float) (trade : Trade.t) :
  TradeRepository.amend_fields new_quantity new_price trade =
    Trade.mk (Trade.trade_id trade) (Trade.trade_date trade)
      (Trade.instrument trade)
      (match new_quantity with
       | Some q => if q =? 0 then Trade.quantity trade else q
       | None => Trade.quantity trade
       end)
      (match new_price with
       | Some p => if (p =? 0)%float then Trade.price trade else p
       | None => Trade.price trade
       end)
      (Trade.side trade).
Proof.
  unfold TradeRepository.amend_fields, truthy_int, truthy_float.
  destruct trade as [tid tdate instr q0 p0 sd].
  destruct new_quantity as [q|], new_price as [p|]; cbn;
    try destruct (q =? 0); try destruct (p =? 0)%float; reflexivity.
Qed.

(** C2.  Amending a registered trade of a reachable repository first
    writes the stored trade's fields: [quantity] becomes a [new_quantity]
    that is given and not [0], [price] becomes a [new_price] that is given
    and not equal to [0.0], and nothing else changes.  The mutated trade is
    stored under the identifier.  It is then applied to the instrument's
    current position by [update_position], the rule of a registration,
    nothing of the original trade having been taken off first: the
    quantity moves from its current value by the amended quantity, and the
    call does, and leaves, what registering the mutated trade as a new
    trade would. *)
Theorem amend_trade_is_non_reversing (repo : TradeRepository.t)
    (trade_id : Z) (new_quantity : option Z) (new_price : option float)
    (trade : Trade.t) :
  reachable repo →
  TradeRepository.trades repo !! trade_id = Some trade →
  let trade' :=
    Trade.mk (Trade.trade_id trade) (Trade.trade_date trade)
      (Trade.instrument trade)
      (match new_quantity with
       | Some q => if q =? 0 then Trade.quantity trade else q
       | None => Trade.quantity trade
       end)
      (match new_price with
       | Some p => if (p =? 0)%float then Trade.price trade else p
       | None => Trade.price trade
       end)
      (Trade.side trade) in
  ∃ position : TradePosition.t,
    TradeRepository.positions repo !! Trade.instrument trade = Some position
    ∧ (let res := TradePosition.update_position trade' position in
       TradeRepository.amend_trade trade_id new_quantity new_price repo =
         (fst res,
          TradeRepository.mk
            (<[trade_id := trade']> (TradeRepository.trades repo))
            (<[Trade.instrument trade := snd res]>
               (TradeRepository.positions repo)))
       ∧ TradePosition.quantity (snd res) =
           if (Trade.side trade =? "buy")%string
           then TradePosition.quantity position + Trade.quantity trade'
           else if (Trade.side trade =? "sell")%string
           then TradePosition.quantity position - Trade.quantity trade'
           else TradePosition.quantity position)
    ∧ TradeRepository.amend_trade trade_id new_quantity new_price repo
      = TradeRepository.add_trade trade' repo.
Proof.
  intros Hreach Hid trade'.
  destruct (reachable_trades_have_positions _ Hreach _ _ Hid)
    as [position Hpos].
  pose proof (reachable_trades_keyed_by_id _ Hreach _ _ Hid) as Hkey.
  exists position. split; [exact Hpos|].
  rewrite (amend_trade_closed _ _ _ _ _ _ Hid Hpos).
  rewrite amend_fields_closed. fold trade'.
  split; [split; [reflexivity|]|].
  - cbn zeta. rewrite update_position_quantity. reflexivity.
  - rewrite add_trade_closed. unfold position_for.
    cbn [trade' Trade.instrument Trade.trade_id]. rewrite Hpos, Hkey.
    reflexivity.
Qed.

Lemma amend_trade_is_non_reversing_witness :
  TradeRepository.trades example_repo !! 2 = Some aapl_buy_50
  ∧ TradeRepository.positions example_repo !! "AAPL"%string
    = Some (TradePosition.mk "AAPL" 130 (15500 / 150)%float)
  ∧ TradeRepository.trades
      (after (Amend 2 (Some 70) (Some 120%float)) example_repo) !! 2
    = Some (Trade.mk 2 (Date 2022 1 2) "AAPL" 70 120%float "buy")
  ∧ TradeRepository.positions
      (after (Amend 2 (Some 70) (Some 120%float)) example_repo)
      !! "AAPL"%string
    = Some (TradePosition.mk "AAPL" 200
              ((15500 / 150 * 130 + 120 * 70) / 200)%float).
Proof.
  assert (TradeRepository.trades example_repo !! 2 = Some aapl_buy_50)
    as Hid by (vm_compute; reflexivity).
  split; [exact Hid|]. split; [vm_compute; reflexivity|].
  destruct (amend_trade_is_non_reversing example_repo 2 (Some 70)
              (Some 120%float) aapl_buy_50 example_repo_reachable Hid)
    as (position & Hpos & [Hamend _] & _).
  unfold after, run_call. rewrite Hamend.
  vm_compute in Hpos. injection Hpos as <-.
  split; vm_compute; reflexivity.
Defined.

(** ** Positions of the stored trades *)

Lemma update_position_outcome_not_KeyError
    (trade : Trade.t) (self : TradePosition.t) :
  update_position_outcome trade self ≠ Raised KeyError.
Proof.
  unfold update_position_outcome.
  repeat match goal with |- context [if ?b then _ else _] => destruct b end;
    discriminate.
Qed.

(** C9.  In a reachable repository every trade of the trade map has its
    instrument among the keys of the position map, so that neither
    [amend_trade] nor [cancel_trade] raises [KeyError] on the subscript
    [self.positions[trade.instrument]]. *)
Theorem stored_trades_have_positions (repo : TradeRepository.t) :
  reachable repo →
  (∀ (trade_id : Z) (trade : Trade.t),
     TradeRepository.trades repo !! trade_id = Some trade →
     Trade.instrument trade ∈ dom (TradeRepository.positions repo))
  ∧ (∀ (trade_id : Z) (new_quantity : option Z) (new_price : option float),
       fst (TradeRepository.amend_trade trade_id new_quantity new_price repo)
       ≠ Raised KeyError)
  ∧ (∀ trade_id : Z,
       fst (TradeRepository.cancel_trade trade_id repo) ≠ Raised KeyError).
Proof.
  intros Hreach.
  pose proof (reachable_trades_have_positions _ Hreach) as Hinv.
  split; [|split].
  - intros tid trade Hid. apply elem_of_dom. eauto.
  - intros tid nq np.
    destruct (TradeRepository.trades repo !! tid) as [trade|] eqn:Hid;
      [|rewrite amend_trade_unknown by exact Hid; discriminate].
    destruct (Hinv _ _ Hid) as [position Hpos].
    rewrite (amend_trade_closed _ _ _ _ _ _ Hid Hpos). cbn.
    rewrite update_position_fst. apply update_position_outcome_not_KeyError.
  - intros tid.
    destruct (TradeRepository.trades repo !! tid) as [trade|] eqn:Hid;
      [|rewrite cancel_trade_unknown by exact Hid; discriminate].
    destruct (Hinv _ _ Hid) as [position Hpos].
    rewrite (cancel_trade_closed _ _ _ _ Hid Hpos). discriminate.
Qed.

Lemma stored_trades_have_positions_witness :
  TradeRepository.trades example_repo !! 3 = Some aapl_sell_20
  ∧ Trade.instrument aapl_sell_20
    ∈ dom (TradeRepository.positions example_repo)
  ∧ fst (TradeRepository.amend_trade 3 (Some 10) None example_repo)
    ≠ Raised KeyError
  ∧ fst (TradeRepository.cancel_trade 3 example_repo) ≠ Raised KeyError.
Proof.
  destruct (stored_trades_have_positions example_repo example_repo_reachable)
    as (Hdom & Hamend & Hcancel).
  assert (TradeRepository.trades example_repo !! 3 = Some aapl_sell_20)
    as Hid by (vm_compute; reflexivity).
  split; [exact Hid|].
  split; [exact (Hdom 3 aapl_sell_20 Hid)|].
  split; [apply Hamend | apply Hcancel].
Defined.

(** Without the invariant the subscript does raise: a repository that holds
    a trade and no position, which no sequence of calls produces. *)
Example amend_trade_KeyError :
  fst (TradeRepository.amend_trade 1 None None
         (TradeRepository.mk {[1 := aapl_buy_100]} ∅))
  = Raised KeyError.
Proof. vm_compute. reflexivity. Qed.

(** ** A registration that raises *)

(** C10.  When the registration of a buy raises [ZeroDivisionError], the
    quantity of the position it worked on was the negation of the trade's
    quantity, and the repository is left with the trade stored under its
    identifier and with the position at quantity [0] and at the average
    price it had before the call. *)
Theorem add_trade_raise_keeps_mutations
    (repo : TradeRepository.t) (trade : Trade.t) :
  Trade.side trade = "buy"%string →
  fst (TradeRepository.add_trade trade repo) = Raised ZeroDivisionError →
  let before := position_for trade repo in
  TradePosition.quantity before = - Trade.quantity trade
  ∧ snd (TradeRepository.add_trade trade repo) =
      TradeRepository.mk
        (<[Trade.trade_id trade := trade]> (TradeRepository.trades repo))
        (<[Trade.instrument trade :=
             TradePosition.mk (TradePosition.instrument before) 0
               (TradePosition.average_price before)]>
           (TradeRepository.positions repo)).
Proof.
  intros Hside. rewrite add_trade_closed. cbn zeta. cbn [fst snd].
  rewrite (update_position_buy _ _ Hside). cbn zeta.
  repeat (destruct (float_of_int _); [|discriminate]).
  destruct (_ =? 0) eqn:Hq; [|discriminate].
  apply Z.eqb_eq in Hq. intros _. cbn [snd].
  unfold TradePosition.set_quantity. rewrite Hq.
  split; [lia | reflexivity].
Qed.

Lemma add_trade_raise_keeps_mutations_witness :
  fst (TradeRepository.add_trade cover_buy short_repo)
    = Raised ZeroDivisionError
  ∧ TradeRepository.positions short_repo !! "AAPL"%string
    = Some (TradePosition.mk "AAPL" (-100) 10%float)
  ∧ TradeRepository.trades (after (Register cover_buy) short_repo) !! 3
    = Some cover_buy
  ∧ TradeRepository.positions (after (Register cover_buy) short_repo)
      !! "AAPL"%string
    = Some (TradePosition.mk "AAPL" 0 10%float).
Proof.
  assert (fst (TradeRepository.add_trade cover_buy short_repo)
          = Raised ZeroDivisionError) as Hraise by (vm_compute; reflexivity).
  split; [exact Hraise|]. split; [vm_compute; reflexivity|].
  destruct (add_trade_raise_keeps_mutations short_repo cover_buy
              eq_refl Hraise) as [_ Hstate].
  unfold after, run_call. rewrite Hstate. split; vm_compute; reflexivity.
Defined.

(** ** Which calls raise, and what *)

(** C4, as stated, fails: the buy [huge_buy] meets a position whose
    quantity is the negation of its own, and what it raises is not a
    division by zero but the [OverflowError] of the conversion of an [int]
    too large for a [float]. *)
Lemma huge_buy_raises_overflow :
  let repo := after (Register huge_sell) TradeRepository.init in
  TradePosition.quantity (position_for huge_buy repo)
    = - Trade.quantity huge_buy
  ∧ fst (TradeRepository.add_trade huge_buy repo) = Raised OverflowError
  ∧ ¬ (fst (TradeRepository.add_trade huge_buy repo)
         = Raised ZeroDivisionError
       ↔ TradePosition.quantity (position_for huge_buy repo)
         = - Trade.quantity huge_buy).
Proof.
  intros repo.
  assert (TradePosition.quantity (position_for huge_buy repo)
          = - Trade.quantity huge_buy) as Hq by (vm_compute; reflexivity).
  assert (fst (TradeRepository.add_trade huge_buy repo)
          = Raised OverflowError) as Hraise by (vm_compute; reflexivity).
  split; [exact Hq|]. split; [exact Hraise|].
  intros [_ Hiff]. specialize (Hiff Hq). rewrite Hraise in Hiff.
  discriminate Hiff.
Qed.

Lemma update_position_outcome_characterised
    (trade : Trade.t) (self : TradePosition.t) :
  raises_as_characterised trade self (update_position_outcome trade self).
Proof.
  unfold raises_as_characterised, update_position_outcome.
  destruct (Trade.side trade =? "buy")%string; [|reflexivity].
  destruct (buy_operands_fit trade self); [|reflexivity].
  destruct (_ =? 0) eqn:Hq; [apply Z.eqb_eq in Hq | apply Z.eqb_neq in Hq];
    split; split; intros; try discriminate; try reflexivity; lia.
Qed.

(** C4, amended.  In a reachable repository a call raises only while it
    applies a buy by [update_position], in a registration or in the
    amendment of a registered trade.  If the quantity of the position, the
    quantity of the trade and their sum all convert to [float], the call
    raises [ZeroDivisionError] if and only if the position's quantity is
    the negation of the trade's, and returns otherwise; if one of the three
    is too large to convert, it raises [OverflowError].  A call that
    applies a trade of another side, a cancellation, an amendment of an
    unknown identifier and [get_position] return. *)
Theorem raises_characterised (repo : TradeRepository.t) (c : call) :
  reachable repo →
  match applied_trade c repo with
  | Some (trade, self) =>
      raises_as_characterised trade self (fst (run_call c repo))
  | None => fst (run_call c repo) = Returned tt
  end.
Proof.
  intros Hreach.
  pose proof (reachable_trades_have_positions _ Hreach) as Hinv.
  destruct c as [trade|tid nq np|tid|instr]; unfold applied_trade, run_call.
  - rewrite add_trade_closed. cbn [fst].
    rewrite update_position_fst. apply update_position_outcome_characterised.
  - destruct (TradeRepository.trades repo !! tid) as [trade|] eqn:Hid;
      [|rewrite amend_trade_unknown by exact Hid; reflexivity].
    destruct (Hinv _ _ Hid) as [position Hpos]. rewrite Hpos.
    rewrite (amend_trade_closed _ _ _ _ _ _ Hid Hpos). cbn [fst].
    rewrite update_position_fst. apply update_position_outcome_characterised.
  - destruct (TradeRepository.trades repo !! tid) as [trade|] eqn:Hid;
      [|rewrite cancel_trade_unknown by exact Hid; reflexivity].
    destruct (Hinv _ _ Hid) as [position Hpos].
    rewrite (cancel_trade_closed _ _ _ _ Hid Hpos). reflexivity.
  - reflexivity.
Qed.

Lemma raises_characterised_witness :
  TradeRepository.positions short_repo !! "AAPL"%string
    = Some (TradePosition.mk "AAPL" (-100) 10%float)
  ∧ buy_operands_fit cover_buy (position_for cover_buy short_repo) = true
  ∧ fst (run_call (Register cover_buy) short_repo) = Raised ZeroDivisionError.
Proof.
  split; [vm_compute; reflexivity|].
  assert (buy_operands_fit cover_buy (position_for cover_buy short_repo)
          = true) as Hfit by (vm_compute; reflexivity).
  split; [exact Hfit|].
  pose proof (raises_characterised short_repo (Register cover_buy)
                short_repo_reachable) as Hres.
  unfold applied_trade, raises_as_characterised in Hres.
  rewrite Hfit in Hres.
  replace (Trade.side cover_buy =? "buy")%string with true in Hres
    by reflexivity.
  apply Hres. vm_compute. reflexivity.
Defined.

(** * Beyond the single calls: quantities, keys and histories *)

(** ** What [update_position] does to the other fields *)

Lemma update_position_instrument (trade : Trade.t) (self : TradePosition.t) :
  TradePosition.instrument (snd (TradePosition.update_position trade self))
  = TradePosition.instrument self.
Proof.
  by_side trade; [|reflexivity..]. cbn.
  repeat (destruct (float_of_int _); [|reflexivity]).
  destruct (_ =? 0); reflexivity.
Qed.

Lemma update_position_signed (trade : Trade.t) (self : TradePosition.t) :
  TradePosition.quantity (snd (TradePosition.update_position trade self))
  = TradePosition.quantity self + signed_quantity trade.
Proof.
  rewrite update_position_quantity. unfold signed_quantity.
  destruct (Trade.side trade =? "buy")%string; [reflexivity|].
  destruct (Trade.side trade =? "sell")%string; lia.
Qed.

Lemma position_for_quantity (trade : Trade.t) (repo : TradeRepository.t) :
  TradePosition.quantity (position_for trade repo)
  = position_quantity (Trade.instrument trade) repo.
Proof.
  unfold position_for, position_quantity.
  destruct (TradeRepository.positions repo !! Trade.instrument trade);
    reflexivity.
Qed.

(** ** The quantity ledger *)

(** Whatever a call returns or raises, the quantity held in an instrument
    moves by the call's [quantity_effect]. *)
Lemma position_quantity_after (c : call) (repo : TradeRepository.t)
    (instrument : string) :
  trades_have_positions repo →
  position_quantity instrument (after c repo)
  = position_quantity instrument repo + quantity_effect c repo instrument.
Proof.
  intros Hinv. destruct c as [trade|tid nq np|tid|instr];
    unfold quantity_effect.
  - rewrite after_register. unfold position_quantity at 1. cbn.
    destruct (String.eqb_spec (Trade.instrument trade) instrument)
      as [<-|Hne].
    + rewrite lookup_insert_eq. cbn.
      rewrite update_position_signed, position_for_quantity. reflexivity.
    + rewrite lookup_insert_ne by exact Hne. unfold position_quantity. lia.
  - unfold after, run_call.
    destruct (TradeRepository.trades repo !! tid) as [trade|] eqn:Hid;
      [|rewrite amend_trade_unknown by exact Hid; cbn; lia].
    destruct (Hinv _ _ Hid) as [position Hpos].
    rewrite (amend_trade_closed _ _ _ _ _ _ Hid Hpos).
    unfold position_quantity at 1. cbn.
    destruct (String.eqb_spec (Trade.instrument trade) instrument)
      as [<-|Hne].
    + rewrite lookup_insert_eq. cbn. rewrite update_position_signed.
      unfold position_quantity. rewrite Hpos. reflexivity.
    + rewrite lookup_insert_ne by exact Hne. unfold position_quantity. lia.
  - unfold after, run_call.
    destruct (TradeRepository.trades repo !! tid) as [trade|] eqn:Hid;
      [|rewrite cancel_trade_unknown by exact Hid; cbn; lia].
    destruct (Hinv _ _ Hid) as [position Hpos].
    rewrite (cancel_trade_closed _ _ _ _ Hid Hpos).
    unfold position_quantity at 1. cbn.
    destruct (String.eqb_spec (Trade.instrument trade) instrument)
      as [<-|Hne].
    + rewrite lookup_insert_eq. cbn.
      unfold position_quantity. rewrite Hpos. cbn. lia.
    + rewrite lookup_insert_ne by exact Hne. unfold position_quantity. lia.
  - rewrite after_get_position. lia.
Qed.

(** ** Keys *)

Lemma after_positions_carry_instrument (c : call) (repo : TradeRepository.t) :
  trades_have_positions repo →
  (∀ instrument position,
     TradeRepository.positions repo !! instrument = Some position →
     TradePosition.instrument position = instrument) →
  ∀ instrument position,
    TradeRepository.positions (after c repo) !! instrument = Some position →
    TradePosition.instrument position = instrument.
Proof.
  intros Hinv Hkeys. destruct c as [trade|tid nq np|tid|instr].
  - rewrite after_register. intros instrument position. cbn.
    rewrite lookup_insert_Some. intros [[<- <-]|[_ Hin]]; [|eauto].
    rewrite update_position_instrument. unfold position_for.
    destruct (TradeRepository.positions repo !! Trade.instrument trade)
      eqn:Hpos; cbn; eauto.
  - unfold after, run_call.
    destruct (TradeRepository.trades repo !! tid) as [trade|] eqn:Hid;
      [|rewrite amend_trade_unknown by exact Hid; exact Hkeys].
    destruct (Hinv _ _ Hid) as [position Hpos].
    rewrite (amend_trade_closed _ _ _ _ _ _ Hid Hpos).
    intros instrument position'. cbn.
    rewrite lookup_insert_Some. intros [[<- <-]|[_ Hin]]; [|eauto].
    rewrite update_position_instrument. eauto.
  - unfold after, run_call.
    destruct (TradeRepository.trades repo !! tid) as [trade|] eqn:Hid;
      [|rewrite cancel_trade_unknown by exact Hid; exact Hkeys].
    destruct (Hinv _ _ Hid) as [position Hpos].
    rewrite (cancel_trade_closed _ _ _ _ Hid Hpos).
    intros instrument position'. cbn.
    rewrite lookup_insert_Some. intros [[<- <-]|[_ Hin]]; [|eauto].
    cbn. eauto.
  - rewrite after_get_position. exact Hkeys.
Qed.

Lemma reachable_positions_carry_instrument (repo : TradeRepository.t) :
  reachable repo →
  ∀ instrument position,
    TradeRepository.positions repo !! instrument = Some position →
    TradePosition.instrument position = instrument.
Proof.
  induction 1 as [|c repo Hreach IH].
  - intros instrument position. cbn. rewrite lookup_empty. discriminate.
  - apply after_positions_carry_instrument; [|exact IH].
    apply reachable_trades_have_positions, Hreach.
Qed.

(** X2.  In a reachable repository every object sits under its own key:
    a trade under its [trade_id], a position under its [instrument]. *)
Theorem stored_objects_carry_their_keys (repo : TradeRepository.t) :
  reachable repo →
  (∀ (trade_id : Z) (trade : Trade.t),
     TradeRepository.trades repo !! trade_id = Some trade →
     Trade.trade_id trade = trade_id)
  ∧ (∀ (instrument : string) (position : TradePosition.t),
       TradeRepository.positions repo !! instrument = Some position →
       TradePosition.instrument position = instrument).
Proof.
  intros Hreach. split.
  - exact (reachable_trades_keyed_by_id _ Hreach).
  - exact (reachable_positions_carry_instrument _ Hreach).
Qed.

Lemma stored_objects_carry_their_keys_witness :
  TradeRepository.trades example_repo !! 2 = Some aapl_buy_50
  ∧ Trade.trade_id aapl_buy_50 = 2
  ∧ TradePosition.instrument
      <$> TradeRepository.positions example_repo !! "AAPL"%string
    = Some "AAPL"%string.
Proof.
  destruct (stored_objects_carry_their_keys example_repo
              example_repo_reachable) as [Hid Hinstr].
  assert (TradeRepository.trades example_repo !! 2 = Some aapl_buy_50)
    as Hstored by (vm_compute; reflexivity).
  split; [exact Hstored|]. split; [exact (Hid 2 aapl_buy_50 Hstored)|].
  destruct (TradeRepository.positions example_repo !! "AAPL"%string)
    as [position|] eqn:Hpos; [|vm_compute in Hpos; discriminate Hpos].
  cbn. f_equal. exact (Hinstr _ _ Hpos).
Defined.

(** ** Locality *)

(** X3.  A call reads and writes one entry of each map at most: the
    position of every instrument other than the one it works on, and the
    trade of every identifier other than the one it names, are after the
    call what they were before, whether the call returns or raises. *)
Theorem calls_are_local (c : call) (repo : TradeRepository.t) :
  (∀ instrument : string,
     touched_instrument c repo ≠ Some instrument →
     TradeRepository.positions (after c repo) !! instrument
     = TradeRepository.positions repo !! instrument)
  ∧ (∀ trade_id : Z,
       touched_trade_id c ≠ Some trade_id →
       TradeRepository.trades (after c repo) !! trade_id
       = TradeRepository.trades repo !! trade_id).
Proof.
  destruct c as [trade|tid nq np|tid|instr]; cbn [touched_instrument
    touched_trade_id].
  - rewrite after_register. cbn. split; intros k Hk;
      apply lookup_insert_ne; congruence.
  - unfold after, run_call.
    destruct (TradeRepository.trades repo !! tid) as [trade|] eqn:Hid;
      [|rewrite amend_trade_unknown by exact Hid; split; reflexivity].
    destruct (TradeRepository.positions repo !! Trade.instrument trade)
      as [position|] eqn:Hpos.
    + rewrite (amend_trade_closed _ _ _ _ _ _ Hid Hpos). cbn.
      split; intros k Hk; apply lookup_insert_ne; congruence.
    + rewrite (amend_trade_no_position _ _ _ _ _ Hid Hpos). cbn.
      split; intros k Hk; [reflexivity|].
      apply lookup_insert_ne; congruence.
  - unfold after, run_call.
    destruct (TradeRepository.trades repo !! tid) as [trade|] eqn:Hid;
      [|rewrite cancel_trade_unknown by exact Hid; split; reflexivity].
    destruct (TradeRepository.positions repo !! Trade.instrument trade)
      as [position|] eqn:Hpos.
    + rewrite (cancel_trade_closed _ _ _ _ Hid Hpos). cbn.
      split; intros k Hk;
        [apply lookup_insert_ne | apply lookup_delete_ne]; congruence.
    + rewrite (cancel_trade_no_position _ _ _ Hid Hpos). cbn.
      split; intros k Hk; [reflexivity|].
      apply lookup_delete_ne; congruence.
  - rewrite after_get_position. split; reflexivity.
Qed.

Lemma calls_are_local_witness :
  let c := Register (Trade.mk 4 (Date 2022 1 4) "MSFT" 10 250%float "buy") in
  TradeRepository.positions (after c example_repo) !! "AAPL"%string
  = TradeRepository.positions example_repo !! "AAPL"%string
  ∧ TradeRepository.trades (after c example_repo) !! 2
    = TradeRepository.trades example_repo !! 2.
Proof.
  intros c. destruct (calls_are_local c example_repo) as [Hpos Hid].
  split; [apply Hpos | apply Hid]; cbn; discriminate.
Defined.

(** ** Positions are created by registrations and never removed *)

Lemma dom_insert_present (instrument : string) (position : TradePosition.t)
    (positions : gmap string TradePosition.t) :
  is_Some (positions !! instrument) →
  dom (<[instrument := position]> positions) = dom positions.
Proof.
  intros Hpos. rewrite dom_insert_L. apply subseteq_union_1_L.
  apply singleton_subseteq_l, elem_of_dom, Hpos.
Qed.

Lemma after_dom_positions (c : call) (repo : TradeRepository.t) :
  trades_have_positions repo →
  dom (TradeRepository.positions (after c repo))
  = registered_instruments [c] ∪ dom (TradeRepository.positions repo).
Proof.
  intros Hinv. destruct c as [trade|tid nq np|tid|instr];
    cbn [registered_instruments]; rewrite ?union_empty_l_L.
  - rewrite after_register. cbn.
    rewrite dom_insert_L, union_empty_r_L. reflexivity.
  - unfold after, run_call.
    destruct (TradeRepository.trades repo !! tid) as [trade|] eqn:Hid;
      [|rewrite amend_trade_unknown by exact Hid; reflexivity].
    destruct (Hinv _ _ Hid) as [position Hpos].
    rewrite (amend_trade_closed _ _ _ _ _ _ Hid Hpos). cbn.
    apply dom_insert_present. eauto.
  - unfold after, run_call.
    destruct (TradeRepository.trades repo !! tid) as [trade|] eqn:Hid;
      [|rewrite cancel_trade_unknown by exact Hid; reflexivity].
    destruct (Hinv _ _ Hid) as [position Hpos].
    rewrite (cancel_trade_closed _ _ _ _ Hid Hpos). cbn.
    apply dom_insert_present. eauto.
  - rewrite after_get_position. reflexivity.
Qed.

Lemma registered_instruments_cons (c : call) (calls : list call) :
  registered_instruments (c :: calls)
  = registered_instruments [c] ∪ registered_instruments calls.
Proof.
  destruct c; cbn [registered_instruments];
    rewrite ?union_empty_l_L, ?union_empty_r_L; reflexivity.
Qed.

Lemma run_dom_positions (calls : list call) (repo : TradeRepository.t) :
  reachable repo →
  dom (TradeRepository.positions (run calls repo))
  = dom (TradeRepository.positions repo) ∪ registered_instruments calls.
Proof.
  revert repo. induction calls as [|c calls IH]; intros repo Hreach.
  - cbn. rewrite union_empty_r_L. reflexivity.
  - change (run (c :: calls) repo) with (run calls (after c repo)).
    rewrite IH by (apply reachable_call, Hreach).
    rewrite after_dom_positions
      by (apply reachable_trades_have_positions, Hreach).
    rewrite (registered_instruments_cons c calls).
    rewrite (union_comm_L (registered_instruments [c])).
    rewrite union_assoc_L. reflexivity.
Qed.

(** X1.  After any sequence of calls on a fresh repository, the
    instruments that have a position are those of the registrations of the
    sequence, raising ones included: no other call creates a position and
    none removes one.  So [get_position] returns [None] exactly for the
    instruments no registration has named. *)
Theorem get_position_none_iff_never_registered
    (calls : list call) (instrument : string) :
  dom (TradeRepository.positions (run calls TradeRepository.init))
  = registered_instruments calls
  ∧ (fst (TradeRepository.get_position instrument
            (run calls TradeRepository.init)) = Returned None
     ↔ instrument ∉ registered_instruments calls).
Proof.
  assert (dom (TradeRepository.positions (run calls TradeRepository.init))
          = registered_instruments calls) as Hdom.
  { rewrite run_dom_positions by apply reachable_init. cbn.
    rewrite dom_empty_L, union_empty_l_L. reflexivity. }
  split; [exact Hdom|].
  rewrite get_position_closed, <- Hdom, not_elem_of_dom. cbn.
  split; [intros [= ->]; reflexivity | intros ->; reflexivity].
Qed.

(** ** Registering, then cancelling *)

Lemma after_register_trades (trade : Trade.t) (repo : TradeRepository.t) :
  TradeRepository.trades (after (Register trade) repo)
  = <[Trade.trade_id trade := trade]> (TradeRepository.trades repo).
Proof. rewrite after_register. reflexivity. Qed.

Lemma after_cancel_trades (trade_id : Z) (repo : TradeRepository.t) :
  TradeRepository.trades (after (Cancel trade_id) repo)
  = delete trade_id (TradeRepository.trades repo).
Proof.
  unfold after, run_call.
  destruct (TradeRepository.trades repo !! trade_id) as [trade|] eqn:Hid.
  - destruct (TradeRepository.positions repo !! Trade.instrument trade)
      as [position|] eqn:Hpos.
    + rewrite (cancel_trade_closed _ _ _ _ Hid Hpos). reflexivity.
    + rewrite (cancel_trade_no_position _ _ _ Hid Hpos). reflexivity.
  - rewrite cancel_trade_unknown by exact Hid. cbn.
    symmetry. apply delete_id, Hid.
Qed.

Lemma cancelled_quantity_signed (trade : Trade.t) :
  Trade.side trade = "buy"%string ∨ Trade.side trade = "sell"%string →
  cancelled_quantity trade = signed_quantity trade.
Proof.
  unfold cancelled_quantity, signed_quantity. intros [-> | ->]; reflexivity.
Qed.

(** The quantity an instrument holds after a trade has been registered and
    the trade stored under its identifier cancelled. *)
Lemma position_quantity_register_cancel (trade : Trade.t)
    (repo : TradeRepository.t) (instrument : string) :
  reachable repo →
  position_quantity instrument
    (after (Cancel (Trade.trade_id trade)) (after (Register trade) repo))
  = position_quantity instrument repo
    + if (Trade.instrument trade =? instrument)%string
      then signed_quantity trade - cancelled_quantity trade else 0.
Proof.
  intros Hreach.
  rewrite !position_quantity_after
    by (apply reachable_trades_have_positions; repeat apply reachable_call;
        exact Hreach).
  unfold quantity_effect.
  rewrite after_register_trades, lookup_insert_eq.
  destruct (Trade.instrument trade =? instrument)%string; lia.
Qed.

(** X4.  Registering a buy or a sell under an identifier that is not stored
    and cancelling it again gives back the trade map and the quantity of
    every instrument, whether or not the registration raised. *)
Theorem register_then_cancel_restores_quantity
    (repo : TradeRepository.t) (trade : Trade.t) :
  reachable repo →
  TradeRepository.trades repo !! Trade.trade_id trade = None →
  Trade.side trade = "buy"%string ∨ Trade.side trade = "sell"%string →
  let repo' :=
    after (Cancel (Trade.trade_id trade)) (after (Register trade) repo) in
  TradeRepository.trades repo' = TradeRepository.trades repo
  ∧ ∀ instrument : string,
      position_quantity instrument repo' = position_quantity instrument repo.
Proof.
  intros Hreach Hfresh Hside repo'. split.
  - unfold repo'. rewrite after_cancel_trades, after_register_trades.
    apply delete_insert_id, Hfresh.
  - intros instrument. unfold repo'.
    rewrite position_quantity_register_cancel by exact Hreach.
    rewrite (cancelled_quantity_signed _ Hside).
    destruct (Trade.instrument trade =? instrument)%string; lia.
Qed.

Lemma register_then_cancel_restores_quantity_witness :
  let trade := Trade.mk 4 (Date 2022 1 4) "AAPL" 70 90%float "buy" in
  let repo' := after (Cancel 4) (after (Register trade) example_repo) in
  TradeRepository.trades example_repo !! 4 = None
  ∧ TradeRepository.trades repo' = TradeRepository.trades example_repo
  ∧ position_quantity "AAPL" repo' = 130.
Proof.
  intros trade repo'.
  assert (TradeRepository.trades example_repo !! 4 = None) as Hfresh
    by (vm_compute; reflexivity).
  split; [exact Hfresh|].
  destruct (register_then_cancel_restores_quantity example_repo trade
              example_repo_reachable Hfresh (or_introl eq_refl))
    as [Htrades Hquantity].
  split; [exact Htrades|].
  transitivity (position_quantity "AAPL" example_repo);
    [exact (Hquantity "AAPL"%string) | vm_compute; reflexivity].
Defined.

(** The average price does not come back: the cancellation leaves the
    average the registration has computed. *)
Example register_then_cancel_keeps_average :
  let trade := Trade.mk 4 (Date 2022 1 4) "AAPL" 70 90%float "buy" in
  TradePosition.average_price
    <$> TradeRepository.positions
          (after (Cancel 4) (after (Register trade) example_repo))
        !! "AAPL"%string
  = Some ((15500 / 150 * 130 + 90 * 70) / 200)%float.
Proof. vm_compute. reflexivity. Qed.

(** X5.  A trade whose side is neither ["buy"] nor ["sell"] changes no
    quantity when it is registered, and yet its cancellation adds its
    quantity to the position, as for a sell. *)
Theorem cancel_of_unsided_trade_adds_quantity
    (repo : TradeRepository.t) (trade : Trade.t) :
  reachable repo →
  Trade.side trade ≠ "buy"%string →
  Trade.side trade ≠ "sell"%string →
  position_quantity (Trade.instrument trade) (after (Register trade) repo)
  = position_quantity (Trade.instrument trade) repo
  ∧ position_quantity (Trade.instrument trade)
      (after (Cancel (Trade.trade_id trade)) (after (Register trade) repo))
    = position_quantity (Trade.instrument trade) repo + Trade.quantity trade.
Proof.
  intros Hreach Hbuy Hsell.
  apply String.eqb_neq in Hbuy, Hsell. split.
  - rewrite position_quantity_after
      by (apply reachable_trades_have_positions, Hreach).
    unfold quantity_effect, signed_quantity.
    rewrite String.eqb_refl, Hbuy, Hsell. lia.
  - rewrite position_quantity_register_cancel by exact Hreach.
    unfold signed_quantity, cancelled_quantity.
    rewrite String.eqb_refl, Hbuy, Hsell. lia.
Qed.

Lemma cancel_of_unsided_trade_adds_quantity_witness :
  let trade := Trade.mk 4 (Date 2022 1 4) "AAPL" 70 90%float "hold" in
  position_quantity "AAPL" example_repo = 130
  ∧ position_quantity "AAPL" (after (Register trade) example_repo) = 130
  ∧ position_quantity "AAPL"
      (after (Cancel 4) (after (Register trade) example_repo)) = 200.
Proof.
  intros trade.
  assert (position_quantity "AAPL" example_repo = 130) as Hq
    by (vm_compute; reflexivity).
  split; [exact Hq|].
  destruct (cancel_of_unsided_trade_adds_quantity example_repo trade
              example_repo_reachable) as [Hregister Hcancel];
    [discriminate..|].
  cbn [Trade.instrument Trade.trade_id Trade.quantity trade] in *.
  rewrite Hregister, Hcancel, Hq. split; reflexivity.
Defined.

(** X6.  Registering a buy or a sell under an identifier that is already
    stored replaces the stored trade without taking its quantity back:
    once the identifier is cancelled, the trade map has lost the replaced
    trade, and every quantity is what it was before the registration, the
    effect of the replaced trade included. *)
Theorem reregistration_orphans_replaced_trade
    (repo : TradeRepository.t) (replaced later : Trade.t) :
  reachable repo →
  TradeRepository.trades repo !! Trade.trade_id later = Some replaced →
  Trade.side later = "buy"%string ∨ Trade.side later = "sell"%string →
  let repo' := after (Register later) repo in
  let repo'' := after (Cancel (Trade.trade_id later)) repo' in
  TradeRepository.trades repo' !! Trade.trade_id later = Some later
  ∧ TradeRepository.trades repo'' !! Trade.trade_id later = None
  ∧ ∀ instrument : string,
      position_quantity instrument repo''
      = position_quantity instrument repo.
Proof.
  intros Hreach Hstored Hside repo' repo''. split; [|split].
  - unfold repo'. rewrite after_register_trades. apply lookup_insert_eq.
  - unfold repo''. rewrite after_cancel_trades. apply lookup_delete_eq.
  - intros instrument. unfold repo'', repo'.
    rewrite position_quantity_register_cancel by exact Hreach.
    rewrite (cancelled_quantity_signed _ Hside).
    destruct (Trade.instrument later =? instrument)%string; lia.
Qed.

Lemma reregistration_orphans_replaced_trade_witness :
  let later := Trade.mk 1 (Date 2022 1 4) "AAPL" 70 90%float "buy" in
  let repo'' := after (Cancel 1) (after (Register later) example_repo) in
  TradeRepository.trades example_repo !! 1 = Some aapl_buy_100
  ∧ TradeRepository.trades repo'' !! 1 = None
  ∧ position_quantity "AAPL" repo'' = 130.
Proof.
  intros later repo''.
  assert (TradeRepository.trades example_repo !! 1 = Some aapl_buy_100)
    as Hstored by (vm_compute; reflexivity).
  split; [exact Hstored|].
  destruct (reregistration_orphans_replaced_trade example_repo aapl_buy_100
              later example_repo_reachable Hstored (or_introl eq_refl))
    as (_ & Hgone & Hquantity).
  split; [exact Hgone|].
  transitivity (position_quantity "AAPL" example_repo);
    [exact (Hquantity "AAPL"%string) | vm_compute; reflexivity].
Defined.

(** ** Histories without amendments and without reused identifiers *)

Lemma net_quantity_step_comm (instrument : string) (t1 t2 : Trade.t) (y : Z) :
  (if (Trade.instrument t1 =? instrument)%string
   then (if (Trade.instrument t2 =? instrument)%string
         then y + signed_quantity t2 else y) + signed_quantity t1
   else (if (Trade.instrument t2 =? instrument)%string
         then y + signed_quantity t2 else y))
  = (if (Trade.instrument t2 =? instrument)%string
     then (if (Trade.instrument t1 =? instrument)%string
           then y + signed_quantity t1 else y) + signed_quantity t2
     else (if (Trade.instrument t1 =? instrument)%string
           then y + signed_quantity t1 else y)).
Proof.
  destruct (Trade.instrument t1 =? instrument)%string,
           (Trade.instrument t2 =? instrument)%string; lia.
Qed.

Lemma net_quantity_empty (instrument : string) :
  net_quantity instrument ∅ = 0.
Proof. unfold net_quantity. apply map_fold_empty. Qed.

Lemma net_quantity_insert (instrument : string) (trade_id : Z)
    (trade : Trade.t) (trades : gmap Z Trade.t) :
  trades !! trade_id = None →
  net_quantity instrument (<[trade_id := trade]> trades)
  = net_quantity instrument trades
    + if (Trade.instrument trade =? instrument)%string
      then signed_quantity trade else 0.
Proof.
  intros Hfresh. unfold net_quantity.
  rewrite map_fold_insert_L;
    [|intros; apply net_quantity_step_comm | exact Hfresh].
  destruct (Trade.instrument trade =? instrument)%string; lia.
Qed.

Lemma net_quantity_delete (instrument : string) (trade_id : Z)
    (trade : Trade.t) (trades : gmap Z Trade.t) :
  trades !! trade_id = Some trade →
  net_quantity instrument (delete trade_id trades)
  = net_quantity instrument trades
    - if (Trade.instrument trade =? instrument)%string
      then signed_quantity trade else 0.
Proof.
  intros Hstored. unfold net_quantity.
  rewrite (map_fold_delete_L _ _ trade_id trade trades);
    [|intros; apply net_quantity_step_comm | exact Hstored].
  destruct (Trade.instrument trade =? instrument)%string; lia.
Qed.

Lemma net_quantity_no_trade (instrument : string) (trades : gmap Z Trade.t) :
  (∀ trade_id trade,
     trades !! trade_id = Some trade → Trade.instrument trade ≠ instrument) →
  net_quantity instrument trades = 0.
Proof.
  induction trades as [|trade_id trade trades Hfresh IH] using map_ind.
  - intros _. apply net_quantity_empty.
  - intros Hnone. rewrite net_quantity_insert by exact Hfresh.
    rewrite IH.
    + pose proof (Hnone trade_id trade (lookup_insert_eq _ _ _)) as Hne.
      apply String.eqb_neq in Hne. rewrite Hne. reflexivity.
    + intros tid t Hin. apply (Hnone tid).
      rewrite lookup_insert_ne; [exact Hin|]. congruence.
Qed.

Lemma reachable_plainly_reachable (repo : TradeRepository.t) :
  reachable_plainly repo → reachable repo.
Proof. induction 1; [constructor | apply reachable_call; assumption ..]. Qed.

Lemma reachable_plainly_sides (repo : TradeRepository.t) :
  reachable_plainly repo →
  ∀ trade_id trade,
    TradeRepository.trades repo !! trade_id = Some trade →
    Trade.side trade = "buy"%string ∨ Trade.side trade = "sell"%string.
Proof.
  induction 1 as [|trade repo _ IH _ Hside|tid repo _ IH|instr repo _ IH];
    intros tid' trade'.
  - cbn. rewrite lookup_empty. discriminate.
  - rewrite after_register_trades, lookup_insert_Some.
    intros [[_ <-]|[_ Hin]]; eauto.
  - rewrite after_cancel_trades, lookup_delete_Some. intros [_ Hin]. eauto.
  - rewrite after_get_position. eauto.
Qed.

Lemma reachable_plainly_quantity (repo : TradeRepository.t)
    (instrument : string) :
  reachable_plainly repo →
  position_quantity instrument repo
  = net_quantity instrument (TradeRepository.trades repo).
Proof.
  induction 1 as [|trade repo Hreach IH Hfresh Hside|tid repo Hreach IH
                  |instr repo Hreach IH].
  - unfold position_quantity. cbn. rewrite lookup_empty, net_quantity_empty.
    reflexivity.
  - rewrite position_quantity_after
      by (apply reachable_trades_have_positions, reachable_plainly_reachable,
            Hreach).
    rewrite after_register_trades, net_quantity_insert by exact Hfresh.
    rewrite IH. reflexivity.
  - rewrite position_quantity_after
      by (apply reachable_trades_have_positions, reachable_plainly_reachable,
            Hreach).
    rewrite after_cancel_trades, IH. unfold quantity_effect.
    destruct (TradeRepository.trades repo !! tid) as [trade|] eqn:Hid.
    + rewrite (net_quantity_delete _ _ _ _ Hid).
      rewrite (cancelled_quantity_signed _
                 (reachable_plainly_sides _ Hreach _ _ Hid)).
      destruct (Trade.instrument trade =? instrument)%string; lia.
    + rewrite delete_id by exact Hid. lia.
  - rewrite after_get_position. exact IH.
Qed.

(** X7.  For a caller that never amends, never registers under a stored
    identifier and registers buys and sells only, the quantity held in an
    instrument is, after every call, the sum of the signed quantities of
    the stored trades of that instrument, whether or not calls have
    raised on the way. *)
Theorem quantity_is_net_of_stored_trades (repo : TradeRepository.t)
    (instrument : string) :
  reachable_plainly repo →
  position_quantity instrument repo
  = net_quantity instrument (TradeRepository.trades repo).
Proof. apply reachable_plainly_quantity. Qed.

Lemma example_repo_reachable_plainly : reachable_plainly example_repo.
Proof.
  unfold example_repo, run, example_usage. cbn [fold_left].
  repeat (apply reachable_plainly_register;
          [|vm_compute; reflexivity|cbn; auto]).
  apply reachable_plainly_init.
Qed.

Lemma quantity_is_net_of_stored_trades_witness :
  net_quantity "AAPL" (TradeRepository.trades example_repo) = 100 + 50 - 20
  ∧ position_quantity "AAPL" example_repo = 130.
Proof.
  pose proof (quantity_is_net_of_stored_trades example_repo "AAPL"
                example_repo_reachable_plainly) as Hnet.
  assert (position_quantity "AAPL" example_repo = 130) as Hq
    by (vm_compute; reflexivity).
  split; [rewrite <- Hnet, Hq; reflexivity | exact Hq].
Defined.

(** X8.  For such a caller, a position whose instrument has no stored
    trade left is flat: quantity [0] and average price [0.0], even when a
    buy has raised on the way and left a zero quantity with another
    average. *)
Theorem flat_when_all_cancelled (repo : TradeRepository.t)
    (instrument : string) (position : TradePosition.t) :
  reachable_plainly repo →
  TradeRepository.positions repo !! instrument = Some position →
  (∀ trade_id trade,
     TradeRepository.trades repo !! trade_id = Some trade →
     Trade.instrument trade ≠ instrument) →
  position = TradePosition.mk instrument 0 0%float.
Proof.
  intros Hreach. revert position.
  induction Hreach as [|trade repo Hreach IH Hfresh Hside|tid repo Hreach IH
                       |instr repo Hreach IH]; intros position.
  - cbn. rewrite lookup_empty. discriminate.
  - rewrite after_register_trades. intros Hpos Hnone.
    pose proof (Hnone _ _ (lookup_insert_eq _ _ _)) as Hne.
    rewrite after_register in Hpos. cbn in Hpos.
    rewrite lookup_insert_ne in Hpos by exact Hne.
    apply IH; [exact Hpos|].
    intros tid t Hin. apply (Hnone tid).
    rewrite lookup_insert_ne; [exact Hin|]. congruence.
  - intros Hpos Hnone.
    destruct (TradeRepository.trades repo !! tid) as [trade|] eqn:Hid;
      [|unfold after, run_call in Hpos, Hnone;
        rewrite cancel_trade_unknown in Hpos, Hnone by exact Hid;
        apply IH; assumption].
    pose proof (reachable_plainly_reachable _ Hreach) as Hreach'.
    destruct (reachable_trades_have_positions _ Hreach' _ _ Hid)
      as [before Hbefore].
    pose proof (reachable_plainly_quantity _ instrument
                  (reachable_plainly_cancel tid _ Hreach)) as Hnet.
    rewrite (net_quantity_no_trade _ _ Hnone) in Hnet.
    unfold position_quantity in Hnet. rewrite Hpos in Hnet. cbn in Hnet.
    rewrite after_cancel_trades in Hnone.
    unfold after, run_call in Hpos.
    rewrite (cancel_trade_closed _ _ _ _ Hid Hbefore) in Hpos. cbn in Hpos.
    destruct (decide (Trade.instrument trade = instrument)) as [Heq|Hne].
    + rewrite Heq, lookup_insert_eq in Hpos. injection Hpos as <-.
      cbn in Hnet. rewrite Hnet. cbn. f_equal.
      apply (reachable_positions_carry_instrument _ Hreach').
      rewrite <- Heq. exact Hbefore.
    + rewrite lookup_insert_ne in Hpos by exact Hne.
      apply IH; [exact Hpos|].
      intros tid' t Hin.
      destruct (decide (tid' = tid)) as [->|Hother].
      * rewrite Hid in Hin. injection Hin as <-. exact Hne.
      * apply (Hnone tid'). rewrite lookup_delete_ne; [exact Hin|].
        congruence.
  - rewrite after_get_position. apply IH.
Qed.

Lemma flat_when_all_cancelled_witness :
  TradeRepository.positions
    (run short_then_cover TradeRepository.init) !! "AAPL"%string
  = Some (TradePosition.mk "AAPL" 0 10%float)
  ∧ TradeRepository.positions covered_and_cancelled_example !! "AAPL"%string
    = Some (TradePosition.mk "AAPL" 0 0%float).
Proof.
  split; [vm_compute; reflexivity|].
  destruct (TradeRepository.positions covered_and_cancelled_example
              !! "AAPL"%string) as [position|] eqn:Hpos;
    [|vm_compute in Hpos; discriminate Hpos].
  f_equal.
  apply (flat_when_all_cancelled covered_and_cancelled_example "AAPL"
           position); [|exact Hpos|].
  - unfold covered_and_cancelled_example, run, short_then_cover,
      short_position.
    cbn [fold_left app].
    repeat apply reachable_plainly_cancel.
    repeat (apply reachable_plainly_register;
            [|vm_compute; reflexivity|cbn; auto]).
    apply reachable_plainly_init.
  - replace (TradeRepository.trades covered_and_cancelled_example)
      with (∅ : gmap Z Trade.t) by (vm_compute; reflexivity).
    intros tid trade Hin. rewrite lookup_empty in Hin. discriminate Hin.
Defined.

(** ** Amendments never store a zero *)

Lemma after_amend_trades (trade_id : Z) (new_quantity : option Z)
    (new_price : option float) (repo : TradeRepository.t) (trade : Trade.t) :
  TradeRepository.trades repo !! trade_id = Some trade →
  TradeRepository.trades
    (after (Amend trade_id new_quantity new_price) repo)
  = <[trade_id := TradeRepository.amend_fields new_quantity new_price trade]>
      (TradeRepository.trades repo).
Proof.
  intros Hid. unfold after, run_call.
  destruct (TradeRepository.positions repo !! Trade.instrument trade)
    as [position|] eqn:Hpos.
  - rewrite (amend_trade_closed _ _ _ _ _ _ Hid Hpos). reflexivity.
  - rewrite (amend_trade_no_position _ _ _ _ _ Hid Hpos). reflexivity.
Qed.

(** X9.  An amendment changes the quantity and the price of the stored
    trade and nothing else, and it never stores a zero: the quantity after
    the call is the one before or a [new_quantity] that is not [0], the
    price after the call is the one before or a [new_price] that does not
    compare equal to [0.0]. *)
Theorem amend_never_stores_zero (repo : TradeRepository.t) (trade_id : Z)
    (new_quantity : option Z) (new_price : option float) (trade : Trade.t) :
  TradeRepository.trades repo !! trade_id = Some trade →
  ∃ trade' : Trade.t,
    TradeRepository.trades
      (after (Amend trade_id new_quantity new_price) repo) !! trade_id
    = Some trade'
    ∧ Trade.trade_id trade' = Trade.trade_id trade
    ∧ Trade.trade_date trade' = Trade.trade_date trade
    ∧ Trade.instrument trade' = Trade.instrument trade
    ∧ Trade.side trade' = Trade.side trade
    ∧ (Trade.quantity trade' = Trade.quantity trade
       ∨ new_quantity = Some (Trade.quantity trade')
         ∧ Trade.quantity trade' ≠ 0)
    ∧ (Trade.price trade' = Trade.price trade
       ∨ new_price = Some (Trade.price trade')
         ∧ (Trade.price trade' =? 0)%float = false).
Proof.
  intros Hid. eexists. split.
  { rewrite (after_amend_trades _ _ _ _ _ Hid). apply lookup_insert_eq. }
  unfold TradeRepository.amend_fields, truthy_int, truthy_float.
  destruct new_quantity as [q|], new_price as [p|];
    try destruct (Z.eqb_spec q 0) as [Hq|Hq];
    try destruct (p =? 0)%float eqn:Hp;
    cbn; repeat split; auto.
Qed.

Lemma amend_never_stores_zero_witness :
  TradeRepository.trades example_repo !! 2 = Some aapl_buy_50
  ∧ TradeRepository.trades
      (after (Amend 2 (Some 0) (Some 120%float)) example_repo) !! 2
    = Some (Trade.set_price 120%float aapl_buy_50).
Proof.
  assert (TradeRepository.trades example_repo !! 2 = Some aapl_buy_50)
    as Hid by (vm_compute; reflexivity).
  split; [exact Hid|].
  destruct (amend_never_stores_zero example_repo 2 (Some 0)
              (Some 120%float) aapl_buy_50 Hid) as (trade' & Hstored & _).
  rewrite Hstored. vm_compute in Hstored. injection Hstored as <-.
  reflexivity.
Defined.

(** ** The zero-quantity invariant while no call raises *)

Lemma zero_quantity_invariant_quietly_witness :
  zero_quantity_invariant (after (Cancel 3) (after (Cancel 2)
                             (after (Cancel 1) example_repo)))
  ∧ TradeRepository.positions
      (after (Cancel 3) (after (Cancel 2) (after (Cancel 1) example_repo)))
      !! "AAPL"%string
    = Some (TradePosition.mk "AAPL" 0 0%float).
Proof.
  split; [|vm_compute; reflexivity].
  apply zero_quantity_invariant_quietly.
  repeat (apply reachable_quietly_call; [|vm_compute; reflexivity]).
  apply reachable_quietly_init.
Defined.

(** ** Integers below 2^53 convert exactly *)

Lemma digits2_pos_iter_xO (m k : positive) :
  digits2_pos (Pos.iter xO m k) = (digits2_pos m + k)%positive.
Proof.
  induction k as [|k IH] using Pos.peano_ind.
  - cbn. lia.
  - rewrite Pos.iter_succ. cbn. rewrite IH. lia.
Qed.

Lemma digits2_pos_lower (m : positive) :
  2 ^ (Z.pos (digits2_pos m) - 1) ≤ Z.pos m.
Proof.
  induction m as [m IH|m IH|]; cbn [digits2_pos];
    [| |cbn; lia];
    rewrite Pos2Z.inj_succ;
    replace (Z.succ (Z.pos (digits2_pos m)) - 1)
      with (Z.succ (Z.pos (digits2_pos m) - 1)) by lia;
    rewrite Z.pow_succ_r by lia; lia.
Qed.

Lemma digits2_pos_small (m : positive) :
  Z.pos m < 2 ^ 53 → Z.pos (digits2_pos m) ≤ 53.
Proof.
  intros Hm.
  destruct (Z_le_gt_dec (Z.pos (digits2_pos m)) 53) as [|Hgt];
    [assumption|].
  pose proof (digits2_pos_lower m) as Hlow.
  assert (2 ^ 53 ≤ 2 ^ (Z.pos (digits2_pos m) - 1))
    by (apply Z.pow_le_mono_r; lia).
  lia.
Qed.

(** A mantissa that is already canonical goes through the rounding
    unchanged. *)
Lemma binary_round_aux_canonical (s : bool) (m : positive) (e : Z) :
  fexp prec emax (Z.pos (digits2_pos m) + e) = e →
  e ≤ emax - prec →
  binary_round_aux prec emax s (Z.pos m) e loc_Exact = S754_finite s m e.
Proof.
  intros Hcan He. unfold binary_round_aux, shr_fexp.
  cbn [Zdigits2 shr_record_of_loc].
  rewrite Hcan, Z.sub_diag.
  cbn [shr shr_m loc_of_shr_record round_nearest_even Zdigits2
       shr_record_of_loc].
  rewrite Hcan, Z.sub_diag. cbn [shr shr_m].
  apply Z.leb_le in He. rewrite He. reflexivity.
Qed.

Lemma binary_round_small (s : bool) (m : positive) :
  Z.pos m < 2 ^ 53 →
  ∃ m' e', binary_round prec emax s m 0 = S754_finite s m' e'
           ∧ bounded prec emax m' e' = true.
Proof.
  intros Hm. pose proof (digits2_pos_small m Hm) as Hd.
  assert (0 < Z.pos (digits2_pos m)) as Hd0 by lia.
  unfold binary_round.
  assert (fexp prec emax (Z.pos (digits2_pos m) + 0)
          = Z.pos (digits2_pos m) - 53) as Hfexp
    by (unfold fexp, SpecFloat.emin, prec, emax; lia).
  rewrite Hfexp. unfold shl_align.
  destruct (Z.pos (digits2_pos m) - 53 - 0) as [|p|p] eqn:Hk; [| lia |].
  - exists m, 0. rewrite binary_round_aux_canonical;
      [| rewrite Hfexp; lia | unfold prec, emax; lia].
    split; [reflexivity|]. unfold bounded, canonical_mantissa.
    rewrite Hfexp. apply andb_true_intro.
    split; [apply Z.eqb_eq; lia | reflexivity].
  - assert (fexp prec emax
              (Z.pos (digits2_pos (Pos.iter xO m p))
               + (Z.pos (digits2_pos m) - 53))
            = Z.pos (digits2_pos m) - 53) as Hcan
      by (rewrite digits2_pos_iter_xO;
          unfold fexp, SpecFloat.emin, prec, emax; lia).
    exists (Pos.iter xO m p), (Z.pos (digits2_pos m) - 53).
    rewrite binary_round_aux_canonical;
      [| exact Hcan | unfold prec, emax; lia].
    split; [reflexivity|]. unfold bounded, canonical_mantissa.
    rewrite Hcan. apply andb_true_intro.
    split; [apply Z.eqb_eq; lia | apply Z.leb_le; unfold prec, emax; lia].
Qed.

Lemma SF2Prim_finite (s : bool) (m : positive) (e : Z) :
  bounded prec emax m e = true →
  is_infinity (SF2Prim (S754_finite s m e)) = false
  ∧ (SF2Prim (S754_finite s m e) =? 0)%float = false.
Proof.
  intros Hb. unfold is_infinity.
  rewrite !FloatAxioms.eqb_spec, abs_spec, Prim2SF_SF2Prim by exact Hb.
  destruct s; split; reflexivity.
Qed.

(** Below 2^53 in absolute value an [int] converts, and to [0.0] only
    when it is [0]. *)
Lemma float_of_int_small (z : Z) :
  Z.abs z < 2 ^ 53 →
  ∃ d, float_of_int z = Some d ∧ (d =? 0)%float = (z =? 0).
Proof.
  intros Hz. unfold float_of_int.
  destruct z as [|m|m]; cbn [binary_normalize].
  - exists 0%float. split; reflexivity.
  - destruct (binary_round_small false m) as (m' & e' & -> & Hb); [lia|].
    destruct (SF2Prim_finite false m' e' Hb) as [-> Hnz].
    eexists. split; [reflexivity | exact Hnz].
  - destruct (binary_round_small true m) as (m' & e' & -> & Hb); [lia|].
    destruct (SF2Prim_finite true m' e' Hb) as [-> Hnz].
    eexists. split; [reflexivity | exact Hnz].
Qed.

Lemma int_fits_float_below_2_53 (z : Z) :
  Z.abs z < 2 ^ 53 → int_fits_float z = true.
Proof.
  intros Hz. unfold int_fits_float.
  destruct (float_of_int_small z Hz) as (d & -> & _). reflexivity.
Qed.

(** X10.  While the quantity of the position, the quantity of the trade
    and their sum stay below 2^53 in absolute value, a buy never raises
    [OverflowError]: it raises [ZeroDivisionError] when the position's
    quantity is the negation of the trade's, and returns otherwise. *)
Theorem buy_below_2_53_never_overflows
    (trade : Trade.t) (self : TradePosition.t) :
  Trade.side trade = "buy"%string →
  Z.abs (TradePosition.quantity self) < 2 ^ 53 →
  Z.abs (Trade.quantity trade) < 2 ^ 53 →
  Z.abs (TradePosition.quantity self + Trade.quantity trade) < 2 ^ 53 →
  let res := fst (TradePosition.update_position trade self) in
  res ≠ Raised OverflowError
  ∧ (res = Raised ZeroDivisionError
     ↔ TradePosition.quantity self = - Trade.quantity trade)
  ∧ (res = Returned tt
     ↔ TradePosition.quantity self ≠ - Trade.quantity trade).
Proof.
  intros Hside Hself Htrade Hsum res. unfold res.
  rewrite update_position_fst. unfold update_position_outcome.
  rewrite Hside. cbn [String.eqb Ascii.eqb Bool.eqb].
  unfold buy_operands_fit.
  rewrite !int_fits_float_below_2_53 by assumption. cbn [andb].
  destruct (_ =? 0) eqn:Hq; [apply Z.eqb_eq in Hq | apply Z.eqb_neq in Hq];
    repeat split; intros; try discriminate; try reflexivity; lia.
Qed.

Lemma buy_below_2_53_never_overflows_witness :
  fst (TradePosition.update_position cover_buy
         (TradePosition.mk "AAPL" (-100) 10%float))
  = Raised ZeroDivisionError
  ∧ fst (TradePosition.update_position cover_buy
           (TradePosition.mk "AAPL" (-99) 10%float))
    = Returned tt.
Proof.
  split.
  - apply (buy_below_2_53_never_overflows cover_buy
             (TradePosition.mk "AAPL" (-100) 10%float));
      [reflexivity | cbn; lia .. | reflexivity].
  - apply (buy_below_2_53_never_overflows cover_buy
             (TradePosition.mk "AAPL" (-99) 10%float));
      [reflexivity | cbn; lia .. | cbn; lia].
Defined.

(** ** A load of registrations, amendments and cancellations *)

Lemma outcomes_app (calls calls' : list call) (repo : TradeRepository.t) :
  outcomes (calls ++ calls') repo
  = outcomes calls repo ++ outcomes calls' (run calls repo).
Proof.
  revert repo. induction calls as [|c calls IH]; intros repo.
  - reflexivity.
  - cbn [app outcomes]. rewrite IH. reflexivity.
Qed.

(** Calls indexed by consecutive integers, by an invariant indexed
    likewise: if every call returns and takes the invariant to the next
    index, all of them return and the invariant holds at the end. *)
Lemma calls_seq_invariant (call_of : Z → call)
    (I : Z → TradeRepository.t → Prop) (n : Z) (k a : nat)
    (repo : TradeRepository.t) :
  Z.of_nat (a + k) ≤ n →
  I (Z.of_nat a) repo →
  (∀ i repo, 0 ≤ i < n → I i repo →
     fst (run_call (call_of i) repo) = Returned tt
     ∧ I (i + 1) (after (call_of i) repo)) →
  let calls := map call_of (map Z.of_nat (seq a k)) in
  Forall (λ res, res = Returned tt) (outcomes calls repo)
  ∧ I (Z.of_nat (a + k)) (run calls repo).
Proof.
  revert a repo. induction k as [|k IH]; intros a repo Hn Ha Hstep.
  - cbn. rewrite Nat.add_0_r. split; [constructor | exact Ha].
  - cbn [seq map outcomes].
    change (run (call_of (Z.of_nat a)
                 :: map call_of (map Z.of_nat (seq (S a) k))) repo)
      with (run (map call_of (map Z.of_nat (seq (S a) k)))
              (after (call_of (Z.of_nat a)) repo)).
    destruct (Hstep (Z.of_nat a) repo ltac:(lia) Ha) as [Hret Hnext].
    replace (Z.of_nat a + 1) with (Z.of_nat (S a)) in Hnext by lia.
    replace (a + S k)%nat with (S a + k)%nat by lia.
    destruct (IH (S a) _ ltac:(lia) Hnext Hstep) as [Hall Hend].
    split; [constructor; [exact Hret | exact Hall] | exact Hend].
Qed.

Lemma calls_range_invariant (call_of : Z → call)
    (I : Z → TradeRepository.t → Prop) (n : Z) (repo : TradeRepository.t) :
  0 ≤ n →
  I 0 repo →
  (∀ i repo, 0 ≤ i < n → I i repo →
     fst (run_call (call_of i) repo) = Returned tt
     ∧ I (i + 1) (after (call_of i) repo)) →
  Forall (λ res, res = Returned tt) (outcomes (map call_of (range n)) repo)
  ∧ I n (run (map call_of (range n)) repo).
Proof.
  intros Hn H0 Hstep. unfold range.
  pose proof (calls_seq_invariant call_of I n (Z.to_nat n) 0 repo) as Hloop.
  cbn [Nat.add] in Hloop. rewrite Z2Nat.id in Hloop by exact Hn.
  apply Hloop; [lia | exact H0 | exact Hstep].
Qed.

(** A buy of moderate size on a position that it does not bring to zero
    returns. *)
Lemma update_position_outcome_buy_returns
    (trade : Trade.t) (self : TradePosition.t) :
  Trade.side trade = "buy"%string →
  0 ≤ TradePosition.quantity self →
  0 < Trade.quantity trade →
  TradePosition.quantity self + Trade.quantity trade < 2 ^ 53 →
  update_position_outcome trade self = Returned tt.
Proof.
  intros Hside Hself Htrade Hsum. unfold update_position_outcome.
  rewrite Hside. cbn [String.eqb Ascii.eqb Bool.eqb].
  unfold buy_operands_fit.
  rewrite !int_fits_float_below_2_53 by lia. cbn [andb].
  destruct (_ =? 0) eqn:Hq; [apply Z.eqb_eq in Hq; lia | reflexivity].
Qed.

Lemma loop_state_register (today : Z → date) (n i : Z)
    (repo : TradeRepository.t) :
  0 ≤ i < n → 100 * n < 2 ^ 53 →
  loop_state today 0 i 0 (100 * i) (bool_decide (0 < i)) repo →
  fst (run_call (Register (load_trade today i)) repo) = Returned tt
  ∧ loop_state today 0 (i + 1) 0 (100 * (i + 1)) (bool_decide (0 < i + 1))
      (after (Register (load_trade today i)) repo).
Proof.
  intros Hi Hn (Hreach & Htrades & Hquantity & Hdom).
  pose proof (reachable_trades_have_positions _ Hreach) as Hinv.
  split.
  - unfold run_call. rewrite add_trade_closed. cbn [fst].
    rewrite update_position_fst.
    apply update_position_outcome_buy_returns;
      rewrite ?position_for_quantity; cbn; try reflexivity;
      rewrite ?Hquantity; lia.
  - split; [apply reachable_call, Hreach|]. split; [|split].
    + intros j. rewrite after_register_trades. cbn [Trade.trade_id load_trade].
      destruct (decide (j = i)) as [->|Hne].
      * rewrite lookup_insert_eq.
        rewrite bool_decide_eq_true_2 by lia.
        rewrite bool_decide_eq_false_2 by lia. reflexivity.
      * rewrite lookup_insert_ne by congruence. rewrite Htrades.
        repeat case_bool_decide; try lia; reflexivity.
    + rewrite position_quantity_after by exact Hinv.
      rewrite Hquantity. cbn. lia.
    + rewrite after_dom_positions by exact Hinv. rewrite Hdom.
      cbn [registered_instruments load_trade Trade.instrument].
      rewrite union_empty_r_L, (bool_decide_eq_true_2 (0 < i + 1)) by lia.
      case_bool_decide; [apply union_idemp_L | apply union_empty_r_L].
Qed.

Lemma loop_state_amend (today : Z → date) (n i : Z)
    (repo : TradeRepository.t) :
  0 ≤ i < n → 250 * n < 2 ^ 53 →
  loop_state today 0 n i (100 * n + 150 * i) (bool_decide (0 < n)) repo →
  fst (run_call (Amend i (Some 150) (Some 120%float)) repo) = Returned tt
  ∧ loop_state today 0 n (i + 1) (100 * n + 150 * (i + 1))
      (bool_decide (0 < n))
      (after (Amend i (Some 150) (Some 120%float)) repo).
Proof.
  intros Hi Hn (Hreach & Htrades & Hquantity & Hdom).
  pose proof (reachable_trades_have_positions _ Hreach) as Hinv.
  assert (TradeRepository.trades repo !! i = Some (load_trade today i))
    as Hid.
  { rewrite Htrades, bool_decide_eq_true_2 by lia.
    rewrite bool_decide_eq_false_2 by lia. reflexivity. }
  destruct (Hinv _ _ Hid) as [position Hpos].
  assert (TradePosition.quantity position = 100 * n + 150 * i) as Hq.
  { rewrite <- Hquantity. unfold position_quantity.
    cbn [load_trade Trade.instrument] in Hpos. rewrite Hpos. reflexivity. }
  split.
  - unfold run_call.
    rewrite (amend_trade_closed _ _ _ _ _ _ Hid Hpos). cbn [fst].
    rewrite update_position_fst.
    apply update_position_outcome_buy_returns;
      [reflexivity | lia | reflexivity | rewrite Hq; cbn; lia].
  - split; [apply reachable_call, Hreach|]. split; [|split].
    + intros j. rewrite (after_amend_trades _ _ _ _ _ Hid).
      change (TradeRepository.amend_fields (Some 150) (Some 120%float)
                (load_trade today i))
        with (load_amended_trade today i).
      destruct (decide (j = i)) as [->|Hne].
      * rewrite lookup_insert_eq.
        rewrite !bool_decide_eq_true_2 by lia. reflexivity.
      * rewrite lookup_insert_ne by congruence. rewrite Htrades.
        repeat case_bool_decide; try lia; reflexivity.
    + rewrite position_quantity_after by exact Hinv.
      rewrite Hquantity. unfold quantity_effect. rewrite Hid. cbn. lia.
    + rewrite after_dom_positions by exact Hinv. rewrite Hdom.
      cbn [registered_instruments]. apply union_empty_l_L.
Qed.

Lemma loop_state_cancel (today : Z → date) (n i : Z)
    (repo : TradeRepository.t) :
  0 ≤ i < n →
  loop_state today i n n (250 * n - 150 * i) (bool_decide (0 < n)) repo →
  fst (run_call (Cancel i) repo) = Returned tt
  ∧ loop_state today (i + 1) n n (250 * n - 150 * (i + 1))
      (bool_decide (0 < n)) (after (Cancel i) repo).
Proof.
  intros Hi (Hreach & Htrades & Hquantity & Hdom).
  pose proof (reachable_trades_have_positions _ Hreach) as Hinv.
  assert (TradeRepository.trades repo !! i
          = Some (load_amended_trade today i)) as Hid.
  { rewrite Htrades, !bool_decide_eq_true_2 by lia. reflexivity. }
  destruct (Hinv _ _ Hid) as [position Hpos].
  split.
  - unfold run_call. rewrite (cancel_trade_closed _ _ _ _ Hid Hpos).
    reflexivity.
  - split; [apply reachable_call, Hreach|]. split; [|split].
    + intros j. rewrite after_cancel_trades.
      destruct (decide (j = i)) as [->|Hne].
      * rewrite lookup_delete_eq.
        rewrite bool_decide_eq_false_2 by lia. reflexivity.
      * rewrite lookup_delete_ne by congruence. rewrite Htrades.
        repeat case_bool_decide; try lia; reflexivity.
    + rewrite position_quantity_after by exact Hinv.
      rewrite Hquantity. unfold quantity_effect. rewrite Hid. cbn. lia.
    + rewrite after_dom_positions by exact Hinv. rewrite Hdom.
      cbn [registered_instruments]. apply union_empty_l_L.
Qed.

Lemma loop_state_init (today : Z → date) :
  loop_state today 0 0 0 (100 * 0) (bool_decide (0 < 0))
    TradeRepository.init.
Proof.
  split; [apply reachable_init|]. split; [|split].
  - intros j. cbn. rewrite lookup_empty.
    rewrite bool_decide_eq_false_2 by lia. reflexivity.
  - reflexivity.
  - cbn. apply dom_empty_L.
Qed.

(** The load, phase by phase: no call raises, and at the end every
    identifier is gone while the quantity is [100 * n]. *)
Lemma load_calls_end (n : Z) (today : Z → date) :
  0 ≤ n → 250 * n < 2 ^ 53 →
  Forall (λ res, res = Returned tt)
    (outcomes (load_calls n today) TradeRepository.init)
  ∧ loop_state today n n n (100 * n) (bool_decide (0 < n))
      (run (load_calls n today) TradeRepository.init).
Proof.
  intros Hn Hbound. unfold load_calls.
  rewrite !outcomes_app, !run_app.
  destruct (calls_range_invariant
              (λ i, Register (load_trade today i))
              (λ i, loop_state today 0 i 0 (100 * i) (bool_decide (0 < i)))
              n TradeRepository.init Hn (loop_state_init today))
    as [Hret1 Hstate1].
  { intros i repo Hi. apply (loop_state_register today n); lia. }
  replace (100 * n) with (100 * n + 150 * 0) in Hstate1 by lia.
  destruct (calls_range_invariant
              (λ i, Amend i (Some 150) (Some 120%float))
              (λ i, loop_state today 0 n i (100 * n + 150 * i)
                      (bool_decide (0 < n)))
              n _ Hn Hstate1)
    as [Hret2 Hstate2].
  { intros i repo Hi. apply (loop_state_amend today n); lia. }
  replace (100 * n + 150 * n) with (250 * n - 150 * 0) in Hstate2 by lia.
  destruct (calls_range_invariant Cancel
              (λ i, loop_state today i n n (250 * n - 150 * i)
                      (bool_decide (0 < n)))
              n _ Hn Hstate2)
    as [Hret3 Hstate3].
  { intros i repo Hi. apply (loop_state_cancel today n); lia. }
  replace (250 * n - 150 * n) with (100 * n) in Hstate3 by lia.
  split; [|exact Hstate3].
  repeat (apply Forall_app; split); assumption.
Qed.

(** X11.  A load on a fresh repository: [n] buys of 100 units of ["AAPL"]
    registered under the identifiers [0] to [n-1], then each of them
    amended to 150 units at 120.0, then each of them cancelled, with
    [250 * n] below 2^53.  None of the [3 * n] calls raises, and the
    repository ends with no trade and with one position, ["AAPL"], of
    quantity [100 * n]: each trade has been counted with 100 units by its
    registration and with 150 more by its amendment, and its cancellation
    has taken back the 150 only. *)
Theorem load_leaves_registered_quantity (n : Z) (today : Z → date) :
  0 < n → 250 * n < 2 ^ 53 →
  Forall (λ res, res = Returned tt)
    (outcomes (load_calls n today) TradeRepository.init)
  ∧ ∃ average_price : float,
      run (load_calls n today) TradeRepository.init =
        TradeRepository.mk ∅
          {["AAPL"%string := TradePosition.mk "AAPL" (100 * n) average_price]}.
Proof.
  intros Hn Hbound.
  destruct (load_calls_end n today) as [Hret Hstate]; [lia..|].
  split; [exact Hret|].
  destruct Hstate as (Hreach & Htrades & Hquantity & Hdom).
  destruct (run _ _) as [trades positions]. cbn in Htrades, Hquantity, Hdom.
  rewrite bool_decide_eq_true_2 in Hdom by lia.
  apply dom_singleton_inv_L in Hdom as [position ->].
  unfold position_quantity in Hquantity. cbn in Hquantity.
  rewrite lookup_singleton_eq in Hquantity. cbn in Hquantity.
  pose proof (reachable_positions_carry_instrument _ Hreach "AAPL" position)
    as Hinstr.
  cbn in Hinstr. rewrite lookup_singleton_eq in Hinstr.
  specialize (Hinstr eq_refl).
  exists (TradePosition.average_price position). f_equal.
  - apply map_eq. intros j. rewrite Htrades, lookup_empty.
    rewrite bool_decide_eq_false_2 by lia. reflexivity.
  - f_equal. destruct position as [instr quantity average].
    cbn in *. subst. reflexivity.
Qed.

Lemma load_leaves_registered_quantity_witness :
  let calls := load_calls 3 (λ _, Date 2022 1 1) in
  0 < 3 ∧ 250 * 3 < 2 ^ 53
  ∧ outcomes calls TradeRepository.init = repeat (Returned tt) 9
  ∧ TradeRepository.trades (run calls TradeRepository.init) = ∅
  ∧ TradePosition.quantity
      <$> TradeRepository.positions (run calls TradeRepository.init)
          !! "AAPL"%string
    = Some 300.
Proof.
  intros calls. split; [lia|]. split; [lia|].
  destruct (load_leaves_registered_quantity 3 (λ _, Date 2022 1 1))
    as [_ [average_price Hend]]; [lia..|].
  split; [vm_compute; reflexivity|].
  unfold calls. rewrite Hend. cbn [TradeRepository.trades
    TradeRepository.positions].
  split; [reflexivity|]. rewrite lookup_singleton_eq. reflexivity.
Defined.

(** ** Amending, then cancelling *)

(** X13.  Amending a stored buy or sell and then cancelling it removes the
    trade and leaves every quantity as it was before the amendment: the
    cancellation takes back what the amendment has added, and what the
    registration had added stays in the position for good. *)
Theorem amend_then_cancel_keeps_registered_quantity
    (repo : TradeRepository.t) (trade_id : Z) (new_quantity : option Z)
    (new_price : option float) (trade : Trade.t) :
  reachable repo →
  TradeRepository.trades repo !! trade_id = Some trade →
  Trade.side trade = "buy"%string ∨ Trade.side trade = "sell"%string →
  let repo' :=
    after (Cancel trade_id)
      (after (Amend trade_id new_quantity new_price) repo) in
  TradeRepository.trades repo' = delete trade_id (TradeRepository.trades repo)
  ∧ ∀ instrument : string,
      position_quantity instrument repo' = position_quantity instrument repo.
Proof.
  intros Hreach Hid Hside repo'. unfold repo'. split.
  - rewrite after_cancel_trades, (after_amend_trades _ _ _ _ _ Hid).
    apply delete_insert_eq.
  - intros instrument.
    rewrite !position_quantity_after
      by (apply reachable_trades_have_positions; repeat apply reachable_call;
          exact Hreach).
    unfold quantity_effect.
    rewrite (after_amend_trades _ _ _ _ _ Hid), lookup_insert_eq, Hid.
    rewrite amend_fields_instrument.
    rewrite cancelled_quantity_signed
      by (rewrite amend_fields_side; exact Hside).
    destruct (Trade.instrument trade =? instrument)%string; lia.
Qed.

Lemma amend_then_cancel_keeps_registered_quantity_witness :
  let repo' := after (Cancel 2) (after (Amend 2 (Some 70) None) example_repo) in
  TradeRepository.trades example_repo !! 2 = Some aapl_buy_50
  ∧ TradeRepository.trades repo' !! 2 = None
  ∧ position_quantity "AAPL" repo' = 130.
Proof.
  intros repo'.
  assert (TradeRepository.trades example_repo !! 2 = Some aapl_buy_50)
    as Hid by (vm_compute; reflexivity).
  split; [exact Hid|].
  destruct (amend_then_cancel_keeps_registered_quantity example_repo 2
              (Some 70) None aapl_buy_50 example_repo_reachable Hid
              (or_introl eq_refl)) as [Htrades Hquantity].
  split.
  - unfold repo'. rewrite Htrades. apply lookup_delete_eq.
  - transitivity (position_quantity "AAPL" example_repo);
      [exact (Hquantity "AAPL"%string) | vm_compute; reflexivity].
Defined.
